(** * hal-9001: the event envelope, its reply router and the console broker

A shallow embedding of [hal/event.go] (package [hal]) and of the
console broker (package [console]), with the properties of the
specification stated over it.

Go strings are byte strings: they are modelled by [string], one
[ascii] per byte.  Code that sends, reads the clock or consults the
preference store runs in a small state-and-panic monad whose state
records every call that leaves the package. *)

From Stdlib Require Import Bool Arith Lia List String Ascii ZArith.
Import ListNotations.
Local Open Scope string_scope.

Set Implicit Arguments.

(** ** Byte strings: the parts of Go's [strings] package used by the code *)

Module GoStrings.

Definition byte_is (n : nat) (c : ascii) : bool := Nat.eqb (nat_of_ascii c) n.

(** [strings.HasPrefix(s, p)] *)
Definition HasPrefix (s p : string) : bool := String.prefix p s.

Fixpoint drop (n : nat) (s : string) : string :=
  match n, s with
  | O, _ => s
  | S _, EmptyString => EmptyString
  | S n', String _ s' => drop n' s'
  end.

Fixpoint take (n : nat) (s : string) : string :=
  match n, s with
  | O, _ => EmptyString
  | S _, EmptyString => EmptyString
  | S n', String c s' => String c (take n' s')
  end.

(** [strings.HasSuffix(s, p)]: [len(s) >= len(p) && s[len(s)-len(p):] == p] *)
Definition HasSuffix (s p : string) : bool :=
  (String.length p <=? String.length s)%nat
  && String.eqb (drop (String.length s - String.length p) s) p.

(** [strings.TrimPrefix(s, p)] *)
Definition TrimPrefix (s p : string) : string :=
  if HasPrefix s p then drop (String.length p) s else s.

(** [strings.TrimSuffix(s, p)] *)
Definition TrimSuffix (s p : string) : string :=
  if HasSuffix s p then take (String.length s - String.length p) s else s.

Fixpoint rev_onto (s acc : string) : string :=
  match s with
  | EmptyString => acc
  | String c s' => rev_onto s' (String c acc)
  end.

Definition rev (s : string) : string := rev_onto s EmptyString.

(** The six ASCII bytes of [asciiSpace]: tab, newline, vertical tab,
    form feed, carriage return and space. *)
Definition ascii_space (c : ascii) : bool :=
  let n := nat_of_ascii c in
  ((9 <=? n) && (n <=? 13))%nat || Nat.eqb n 32.

(** [unicode.IsSpace] beyond the ASCII six: U+0085 and U+00A0, whose
    UTF-8 encodings are the two bytes C2 85 and C2 A0, *)
Definition space_rune2 (c d : ascii) : bool :=
  byte_is 194 c && (byte_is 133 d || byte_is 160 d).

(** and U+1680 (E1 9A 80), U+2000..U+200A (E2 80 80..8A), U+2028,
    U+2029 and U+202F (E2 80 A8, A9, AF), U+205F (E2 81 9F) and
    U+3000 (E3 80 80), of three bytes each. *)
Definition space_rune3 (c d e : ascii) : bool :=
  let ne := nat_of_ascii e in
  byte_is 225 c && byte_is 154 d && byte_is 128 e
  || byte_is 226 c && byte_is 128 d
     && ((128 <=? ne) && (ne <=? 138) || Nat.eqb ne 168 || Nat.eqb ne 169
         || Nat.eqb ne 175)%nat
  || byte_is 226 c && byte_is 129 d && byte_is 159 e
  || byte_is 227 c && byte_is 128 d && byte_is 128 e.

(** The number of bytes of the white-space rune the string starts
    with, [0] when it starts with none. *)
Definition space_rune_len (s : string) : nat :=
  match s with
  | EmptyString => 0
  | String c s1 =>
      if ascii_space c then 1
      else match s1 with
           | EmptyString => 0
           | String d s2 =>
               if space_rune2 c d then 2
               else match s2 with
                    | EmptyString => 0
                    | String e _ => if space_rune3 c d e then 3 else 0
                    end
           end
  end.

(** The same on the reversed string, for the rune the string ends
    with: the bytes of the rune then come last byte first. *)
Definition space_rune_len_rev (r : string) : nat :=
  match r with
  | EmptyString => 0
  | String e r1 =>
      if ascii_space e then 1
      else match r1 with
           | EmptyString => 0
           | String d r2 =>
               if space_rune2 d e then 2
               else match r2 with
                    | EmptyString => 0
                    | String c _ => if space_rune3 c d e then 3 else 0
                    end
           end
  end.

(** [strings.TrimLeftFunc(s, unicode.IsSpace)] *)
Fixpoint TrimLeftSpace (s : string) : string :=
  match s with
  | EmptyString => EmptyString
  | String _ s1 =>
      match space_rune_len s with
      | 0 => s
      | 1 => TrimLeftSpace s1
      | 2 => match s1 with
             | String _ s2 => TrimLeftSpace s2
             | EmptyString => s
             end
      | _ => match s1 with
             | String _ (String _ s3) => TrimLeftSpace s3
             | _ => s
             end
      end
  end.

(** The reversed string with the white-space runes it starts with
    removed: [strings.TrimRightFunc(s, unicode.IsSpace)], reversed. *)
Fixpoint TrimLeftSpace_rev (r : string) : string :=
  match r with
  | EmptyString => EmptyString
  | String _ r1 =>
      match space_rune_len_rev r with
      | 0 => r
      | 1 => TrimLeftSpace_rev r1
      | 2 => match r1 with
             | String _ r2 => TrimLeftSpace_rev r2
             | EmptyString => r
             end
      | _ => match r1 with
             | String _ (String _ r3) => TrimLeftSpace_rev r3
             | _ => r
             end
      end
  end.

Definition TrimRightSpace (s : string) : string := rev (TrimLeftSpace_rev (rev s)).

(** [strings.TrimSpace(s)]: all leading and trailing white space
    removed, as defined by Unicode. *)
Definition TrimSpace (s : string) : string := TrimRightSpace (TrimLeftSpace s).

(** An ASCII byte that is not white space: it is part of no white-space
    rune. *)
Definition plain_byte (c : ascii) : bool :=
  negb (ascii_space c) && (nat_of_ascii c <? 128)%nat.

(** The last byte of the string is a plain byte. *)
Fixpoint ends_plain (s : string) : bool :=
  match s with
  | EmptyString => false
  | String c EmptyString => plain_byte c
  | String _ s' => ends_plain s'
  end.

End GoStrings.

(** ** The regular expression of [BodyAsArgv]

The expression has three alternatives: a single-quoted run (a single
quote, any bytes but a single quote, a single quote), a double-quoted
run (the same with the double quote), and [\S+].  [FindAllString(body, -1)]
returns the successive leftmost matches, the alternatives tried in the
order written (the leftmost-first rule of Go), each repetition greedy. *)

Module Regexp.
Import GoStrings.

Definition squote : ascii := ascii_of_nat 39.
Definition dquote : ascii := ascii_of_nat 34.

(** The Perl class [\s] of Go's regexp syntax is [[\t\n\f\r ]]; [\S]
    is its complement.  The vertical tab is not in it. *)
Definition perl_space (c : ascii) : bool :=
  let n := nat_of_ascii c in
  Nat.eqb n 9 || Nat.eqb n 10 || Nat.eqb n 12 || Nat.eqb n 13 || Nat.eqb n 32.

(** [[^q]*q] at the head of [s]: the number of bytes matched. *)
Fixpoint close_quote (q : ascii) (s : string) : option nat :=
  match s with
  | EmptyString => None
  | String c s' =>
      if Ascii.eqb c q then Some 1
      else match close_quote q s' with
           | Some n => Some (S n)
           | None => None
           end
  end.

(** [\S*] at the head of [s], greedy: the number of bytes matched. *)
Fixpoint nonspace_run (s : string) : nat :=
  match s with
  | EmptyString => 0
  | String c s' => if perl_space c then 0 else S (nonspace_run s')
  end.

(** The quoted alternative for quote [q] at the head of [s]. *)
Definition quoted_here (q : ascii) (s : string) : option nat :=
  match s with
  | EmptyString => None
  | String c s' =>
      if Ascii.eqb c q
      then match close_quote q s' with
           | Some n => Some (S n)
           | None => None
           end
      else None
  end.

(** The length of the match that starts at the head of [s], if one
    does: the first alternative that succeeds. *)
Definition match_here (s : string) : option nat :=
  match quoted_here squote s with
  | Some n => Some n
  | None =>
      match quoted_here dquote s with
      | Some n => Some n
      | None =>
          match nonspace_run s with
          | 0 => None
          | n => Some n
          end
      end
  end.

(** The scan of [FindAllString]: [skip] bytes of the previous match are
    still to be passed; at any other position the match that starts
    there, if any, is the next leftmost match. *)
Fixpoint scan (skip : nat) (s : string) : list string :=
  match s with
  | EmptyString => []
  | String _ s' =>
      match skip with
      | S k => scan k s'
      | O =>
          match match_here s with
          | Some n => take n s :: scan (n - 1) s'
          | None => scan 0 s'
          end
      end
  end.

Definition FindAllString (s : string) : list string := scan 0 s.

(** *** What the matches are, said without the scan *)

(** All bytes of [s] satisfy [p]. *)
Fixpoint all_bytes (p : ascii -> bool) (s : string) : bool :=
  match s with
  | EmptyString => true
  | String c s' => p c && all_bytes p s'
  end.

Definition other_than (q c : ascii) : bool := negb (Ascii.eqb c q).

Definition not_space (c : ascii) : bool := negb (perl_space c).

Definition is_quote (q : ascii) : Prop := q = squote \/ q = dquote.

(** The string is at its end or goes on with white space: a run of
    non-space bytes that stops here is as long as it can be. *)
Definition at_boundary (rest : string) : Prop :=
  match rest with
  | EmptyString => True
  | String c _ => perl_space c = true
  end.

(** [Tokens s ms]: the matches of the expression in [s], from left to
    right, are [ms].  White space between matches is passed; a quote
    that has a closing quote after it starts a quoted run, which ends at
    the first closing quote; any other byte starts a run of non-space
    bytes that goes on to the next white space or the end, and if that
    byte is a quote, no quote of its kind comes after it in the string. *)
Inductive Tokens : string -> list string -> Prop :=
| Tokens_end : Tokens EmptyString []
| Tokens_space c s ms :
    perl_space c = true -> Tokens s ms -> Tokens (String c s) ms
| Tokens_quoted q inner rest ms :
    is_quote q -> all_bytes (other_than q) inner = true ->
    Tokens rest ms ->
    Tokens (String q (inner ++ String q rest))
           (String q (inner ++ String q EmptyString) :: ms)
| Tokens_run c m rest ms :
    perl_space c = false -> all_bytes not_space m = true -> at_boundary rest ->
    (is_quote c -> all_bytes (other_than c) (m ++ rest) = true) ->
    Tokens rest ms ->
    Tokens (String c (m ++ rest)) (String c m :: ms).

(** [token_of m t]: the token [t] is what the match [m] stands for.  A
    quoted run stands for what is between its quotes, and for nothing
    else; a run of non-space bytes that is no quoted run (if it starts
    with a quote, no quote of that kind comes after it) stands for
    itself, unless it is a quote character that stands alone, which the
    code turns into the empty token.  A match has one token only (see
    [token_of_functional]). *)
Definition token_of (m t : string) : Prop :=
  (exists q inner,
      is_quote q /\ all_bytes (other_than q) inner = true
      /\ m = String q (inner ++ String q EmptyString) /\ t = inner)
  \/ (exists c r,
         m = String c r /\ all_bytes not_space m = true
         /\ (is_quote c -> all_bytes (other_than c) r = true)
         /\ ~ (is_quote c /\ r = EmptyString) /\ t = m)
  \/ (exists q, is_quote q /\ m = String q EmptyString /\ t = EmptyString).

End Regexp.



(** ** Package [hal]: the event envelope *)

Module hal.
Import GoStrings Regexp.

(** Modelled from the spec: the type [Pref] is declared in a file of
    package [hal] that is not among the sources.  It is the scoped
    preference of the specification, a (user, room, broker, plugin, key)
    to value tuple with a success flag on lookup; [event.go] writes the
    four scope fields and reads [Value] and [Success]. *)
Module Pref.
Record t : Type := mk
  { User : string; Room : string; Broker : string; Plugin : string;
    Key : string; Value : string; Success : bool }.
End Pref.

Definition Prefs : Type := list Pref.t.

(** Modelled from the spec: the setting definitions a plugin declares
    (key, default, optional room scope), of which [event.go] reads
    [Room], [Key] and [Default]. *)
Module Setting.
Record t : Type := mk { Key : string; Default : string; Room : string }.
End Setting.

(** Modelled from the spec: the plugin metadata reached through
    [e.instance.Plugin], a name and the declared settings in order. *)
Module Plugin.
Record t : Type := mk { Name : string; Settings : list Setting.t }.
End Plugin.

(** Modelled from the spec: the instance metadata behind the pointer
    [e.instance], of which [event.go] reads the plugin only. *)
Module Instance.
Record t : Type := mk { Plugin : Plugin.t }.
End Instance.

(** The broker interface, as far as it is pure: the name and the four
    identifier translations.  [Send], [SendDM] and [SendTable] act on
    the transport of the broker; a call of one of them is recorded in
    the trace of the world (see [Action]). *)
Class BrokerI (B : Type) : Type :=
  { Name : B -> string;
    RoomIdToName : B -> string -> string;
    RoomNameToId : B -> string -> string;
    UserIdToName : B -> string -> string;
    UserNameToId : B -> string -> string }.

(** The preference store, an external collaborator that [event.go]
    reaches through [Pref.FindKey], [Prefs.One] and the package-level
    [FindPrefs] and [GetPref]; none of them is among the sources, so
    the development is parametric in them. *)
Class PrefStore : Type :=
  { FindKey : Pref.t -> string -> Prefs;
    One : Prefs -> Pref.t;
    FindPrefs : string -> string -> string -> string -> string -> Prefs;
    GetPref : string -> string -> string -> string -> string -> string -> Pref.t }.

Section Envelope.

(** [B] is the dynamic type behind the [Broker] interface value,
    [Func] the type of the [func(string)] values a caller may store,
    [Dyn] what the empty interface [Original] may hold. *)
Context {B Func Dyn : Type} {broker_impl : BrokerI B} {store : PrefStore}.

Record Evt : Type := mkEvt
  { ID : string;
    Body : string;
    Command : string;
    Subject : string;
    Room : string;
    RoomId : string;
    User : string;
    UserId : string;
    Time : Z;
    Broker : option B;
    IsChat : bool;
    IsBot : bool;
    ToUser : bool;
    ToRoom : bool;
    ToFunc : bool;
    ReplyFunc : option Func;
    Original : option Dyn;
    instance : option Instance.t }.

Definition set_Body (e : Evt) (v : string) : Evt :=
  mkEvt (ID e) v (Command e) (Subject e) (Room e) (RoomId e) (User e)
        (UserId e) (Time e) (Broker e) (IsChat e) (IsBot e) (ToUser e)
        (ToRoom e) (ToFunc e) (ReplyFunc e) (Original e) (instance e).

Definition set_ToUser (e : Evt) (v : bool) : Evt :=
  mkEvt (ID e) (Body e) (Command e) (Subject e) (Room e) (RoomId e) (User e)
        (UserId e) (Time e) (Broker e) (IsChat e) (IsBot e) v
        (ToRoom e) (ToFunc e) (ReplyFunc e) (Original e) (instance e).

Definition set_ToRoom (e : Evt) (v : bool) : Evt :=
  mkEvt (ID e) (Body e) (Command e) (Subject e) (Room e) (RoomId e) (User e)
        (UserId e) (Time e) (Broker e) (IsChat e) (IsBot e) (ToUser e)
        v (ToFunc e) (ReplyFunc e) (Original e) (instance e).

Definition set_Original (e : Evt) (v : option Dyn) : Evt :=
  mkEvt (ID e) (Body e) (Command e) (Subject e) (Room e) (RoomId e) (User e)
        (UserId e) (Time e) (Broker e) (IsChat e) (IsBot e) (ToUser e)
        (ToRoom e) (ToFunc e) (ReplyFunc e) v (instance e).

(** *** The world outside the package *)

(** Every call that leaves [event.go]: the three sending methods of
    the broker, the stored reply function, and the entry points of
    the preference store. *)
Inductive Action : Type :=
| ASend (b : B) (e : Evt)
| ASendDM (b : B) (e : Evt)
| ASendTable (b : B) (e : Evt) (hdr : list string) (rows : list (list string))
| AReplyFunc (f : Func) (msg : string)
| AFindKey (p : Pref.t) (key : string)
| AFindPrefs (user broker room plugin key : string)
| AGetPref (user broker room plugin key default : string).

(** [clock] is what successive calls of [time.Now()] return, [tick]
    counts the calls made so far, [trace] lists the actions in the
    order they happened. *)
Record World : Type := mkWorld
  { clock : nat -> Z; tick : nat; trace : list Action }.

Inductive Outcome (A : Type) : Type :=
| Ok (a : A)
| Panic (msg : string).
Arguments Panic {A} msg.

Definition M (A : Type) : Type := World -> Outcome A * World.

Definition ret {A : Type} (a : A) : M A := fun w => (Ok a, w).

Definition bind {A C : Type} (m : M A) (k : A -> M C) : M C :=
  fun w => match m w with
           | (Ok a, w') => k a w'
           | (Panic msg, w') => (Panic msg, w')
           end.

Definition panic {A : Type} (msg : string) : M A := fun w => (Panic msg, w).

Definition emit (a : Action) : M unit :=
  fun w => (Ok tt, mkWorld (clock w) (tick w) (trace w ++ [a])%list).

(** [time.Now()] *)
Definition now : M Z :=
  fun w => (Ok (clock w (tick w)), mkWorld (clock w) (S (tick w)) (trace w)).


Notation "x <- c ;; k" := (bind c (fun x => k))
  (at level 100, c at next level, right associativity).
Notation "c ;;; k" := (bind c (fun _ => k))
  (at level 100, right associativity).

(** The run-time panic of Go on a method call through a nil interface
    value, on a call of a nil function value and on a field access
    through a nil pointer. *)
Definition nil_dereference : string :=
  "runtime error: invalid memory address or nil pointer dereference".

(** *** The methods of [Evt] *)

(** The composite literal of [Clone] with [t] for [time.Now()]: the
    fields the source does not name get the zero value of their type. *)
Definition Clone_at (e : Evt) (t : Z) : Evt :=
  {| ID := ID e;
     Body := "";
     Command := "";
     Subject := "";
     Room := Room e;
     RoomId := RoomId e;
     User := User e;
     UserId := UserId e;
     Time := t;
     Broker := Broker e;
     IsChat := IsChat e;
     IsBot := IsBot e;
     ToUser := false;
     ToRoom := false;
     ToFunc := false;
     ReplyFunc := None;
     Original := Original e;
     instance := None |}.

Definition Clone (e : Evt) : M Evt :=
  t <- now ;;
  ret (Clone_at e t).

(** [e.Broker.SendDM(out)] and the like: a method call through the
    interface value, which panics when the value is nil.  The call
    itself is taken to return. *)
Definition ReplyDM (e : Evt) (msg : string) : M unit :=
  out <- Clone e ;;
  let out := set_Body out msg in
  match Broker e with
  | Some b => emit (ASendDM b out)
  | None => panic nil_dereference
  end.

Definition ReplyToRoom (e : Evt) (msg : string) : M unit :=
  out <- Clone e ;;
  let out := set_Body out msg in
  match Broker e with
  | Some b => emit (ASend b out)
  | None => panic "hal.Evt.Reply called with nil Broker!"
  end.

Definition ReplyTable (e : Evt) (hdr : list string) (rows : list (list string)) : M unit :=
  out <- Clone e ;;
  match Broker e with
  | Some b => emit (ASendTable b out hdr rows)
  | None => panic "hal.Evt.ReplyTable called with nil Broker!"
  end.

Definition BrokerName (e : Evt) : M string :=
  match Broker e with
  | Some b => ret (Name b)
  | None => panic nil_dereference
  end.

(** [e.instance.Plugin], a field access through the pointer [e.instance] *)
Definition instance_Plugin (e : Evt) : M Plugin.t :=
  match instance e with
  | Some i => ret (Instance.Plugin i)
  | None => panic nil_dereference
  end.

Definition AsPref (e : Evt) : M Pref.t :=
  plugin <- match instance e with
            | Some i => ret (Plugin.Name (Instance.Plugin i))
            | None => ret ""
            end ;;
  broker <- BrokerName e ;;
  ret {| Pref.User := UserId e;
         Pref.Room := RoomId e;
         Pref.Broker := broker;
         Pref.Plugin := plugin;
         Pref.Key := "";
         Pref.Value := "";
         Pref.Success := false |}.

(** [e.ReplyFunc(msg)] *)
Definition call_ReplyFunc (e : Evt) (msg : string) : M unit :=
  match ReplyFunc e with
  | Some f => emit (AReplyFunc f msg)
  | None => panic nil_dereference
  end.

(** [p.FindKey(key).One()] *)
Definition FindKey_One (p : Pref.t) (key : string) : M Pref.t :=
  emit (AFindKey p key) ;;;
  ret (One (FindKey p key)).

Definition Reply (e : Evt) (msg : string) : M unit :=
  delivered <- (if ToFunc e
                then call_ReplyFunc e msg ;;; ret true
                else ret false) ;;
  delivered <- (if ToRoom e
                then ReplyToRoom e msg ;;; ret true
                else ret delivered) ;;
  delivered <- (if ToUser e
                then ReplyDM e msg ;;; ret true
                else ret delivered) ;;
  if delivered : bool then ret tt
  else
    p <- AsPref e ;;
    replyVia <- FindKey_One p "reply-via-dm" ;;
    if Pref.Success replyVia
    then if Pref.Value replyVia =? "true"
         then ReplyDM e msg
         else ReplyToRoom e msg
    else ReplyToRoom e msg.

Definition Evt_FindPrefs (e : Evt) : M Prefs :=
  broker <- BrokerName e ;;
  pl <- instance_Plugin e ;;
  let plugin := Plugin.Name pl in
  emit (AFindPrefs (User e) broker (RoomId e) plugin "") ;;;
  ret (FindPrefs (User e) broker (RoomId e) plugin "").

(** The body of the [range] loop of [InstanceSettings], over the
    settings still to visit, with [out] built so far. *)
Fixpoint InstanceSettings_loop (e : Evt) (broker plugin : string)
         (stgs : list Setting.t) (out : Prefs) : M Prefs :=
  match stgs with
  | [] => ret out
  | stg :: rest =>
      if negb (Setting.Room stg =? "") && negb (Setting.Room stg =? RoomId e)
      then InstanceSettings_loop e broker plugin rest out
      else
        emit (AGetPref "" broker (RoomId e) plugin
                       (Setting.Key stg) (Setting.Default stg)) ;;;
        let pref := GetPref "" broker (RoomId e) plugin
                            (Setting.Key stg) (Setting.Default stg) in
        InstanceSettings_loop e broker plugin rest (out ++ [pref])%list
  end.

Definition InstanceSettings (e : Evt) : M Prefs :=
  broker <- BrokerName e ;;
  pl <- instance_Plugin e ;;
  let plugin := Plugin.Name pl in
  InstanceSettings_loop e broker plugin (Plugin.Settings pl) [].

(** The quote-removing loop body of [BodyAsArgv]. *)
Definition unquote (val : string) : string :=
  let sq := String squote EmptyString in
  let dq := String dquote EmptyString in
  if HasPrefix val sq && HasSuffix val sq
  then TrimSuffix (TrimPrefix val sq) sq
  else if HasPrefix val dq && HasSuffix val dq
       then TrimSuffix (TrimPrefix val dq) dq
       else val.

Definition BodyAsArgv (e : Evt) : list string :=
  let body := TrimSpace (Body e) in
  let argv := FindAllString body in
  map unquote argv.

Definition ForceToRoom (e : Evt) : M Evt :=
  out <- Clone e ;;
  ret (set_ToRoom out true).

Definition ForceToUser (e : Evt) : M Evt :=
  out <- Clone e ;;
  ret (set_ToUser out true).

(** *** Reading the world *)

(** The world after one more reading of the clock. *)
Definition ticked (w : World) : World := mkWorld (clock w) (S (tick w)) (trace w).

(** The world after the action [a]. *)
Definition logged (w : World) (a : Action) : World :=
  mkWorld (clock w) (tick w) (trace w ++ [a])%list.

(** The envelope a reply path hands to the broker when it starts in [w]. *)
Definition outgoing (e : Evt) (msg : string) (w : World) : Evt :=
  set_Body (Clone_at e (clock w (tick w))) msg.

(** The envelope an action hands to the broker, when it is a send. *)
Definition sent_Evt (a : Action) : option Evt :=
  match a with
  | ASend _ e | ASendDM _ e | ASendTable _ e _ _ => Some e
  | _ => None
  end.

(** No delivery-intent flag is set and no reply function is stored. *)
Definition no_forcing (e : Evt) : bool :=
  negb (ToFunc e) && negb (ToRoom e) && negb (ToUser e)
  && match ReplyFunc e with
     | None => true
     | Some _ => false
     end.

(** Every envelope the actions hand to a broker is free of forcing state. *)
Definition sends_unforced (l : list Action) : bool :=
  forallb (fun a => match sent_Evt a with
                    | Some o => no_forcing o
                    | None => true
                    end) l.

(** The action is a call into the preference store. *)
Definition consults_store (a : Action) : bool :=
  match a with
  | AFindKey _ _ | AFindPrefs _ _ _ _ _ | AGetPref _ _ _ _ _ _ => true
  | _ => false
  end.

(** The setting is one [InstanceSettings] resolves for [e]: it is not
    scoped to a room, or it is scoped to the room of [e]. *)
Definition setting_applies (e : Evt) (stg : Setting.t) : bool :=
  (Setting.Room stg =? "") || (Setting.Room stg =? RoomId e).

(** The call of [GetPref] that resolves [stg] under the scope given, and
    the row it returns. *)
Definition setting_query (user broker room plugin : string) (stg : Setting.t) : Action :=
  AGetPref user broker room plugin (Setting.Key stg) (Setting.Default stg).

Definition setting_row (user broker room plugin : string) (stg : Setting.t) : Pref.t :=
  GetPref user broker room plugin (Setting.Key stg) (Setting.Default stg).

(** The call into the store is made under the user, broker name, room
    id and plugin name given. *)
Definition scoped_to (user broker room plugin : string) (a : Action) : bool :=
  match a with
  | AFindPrefs u b r p _ | AGetPref u b r p _ _ =>
      (u =? user) && (b =? broker) && (r =? room) && (p =? plugin)
  | AFindKey q _ =>
      (Pref.User q =? user) && (Pref.Broker q =? broker)
      && (Pref.Room q =? room) && (Pref.Plugin q =? plugin)
  | _ => true
  end.

(** Every call into the store among [l] is made under the user, the
    broker name, the room id and the plugin name of the envelope. *)
Definition user_scoped (e : Evt) (b : B) (i : Instance.t) (l : list Action) : Prop :=
  Forall (fun a => scoped_to (User e) (Name b) (RoomId e)
                             (Plugin.Name (Instance.Plugin i)) a = true) l.

(** The text a delivery carries: the argument of the reply function,
    the body of the envelope handed to [Send] or to [SendDM]. *)
Definition delivered_text (a : Action) : option string :=
  match a with
  | AReplyFunc _ msg => Some msg
  | ASend _ e | ASendDM _ e => Some (Body e)
  | _ => None
  end.

(** The texts delivered by the actions, in order. *)
Definition deliveries (l : list Action) : list string :=
  flat_map (fun a => match delivered_text a with
                     | Some t => [t]
                     | None => []
                     end) l.

End Envelope.

Arguments Evt : clear implicits.
Arguments Action : clear implicits.
Arguments World : clear implicits.
Arguments M : clear implicits.
Arguments Panic {A} msg.

Declare Scope go_scope.
Delimit Scope go_scope with go.
Notation "x <- c ;; k" := (bind c (fun x => k))
  (at level 100, c at next level, right associativity) : go_scope.
Notation "c ;;; k" := (bind c (fun _ => k))
  (at level 100, right associativity) : go_scope.

(** [run m w] is the outcome of [m] started in [w]; [acts m w] are the
    actions [m] adds to the trace. *)
Definition run {B Func Dyn A : Type} (m : M B Func Dyn A) (w : World B Func Dyn)
  : Outcome A := fst (m w).

Definition world_after {B Func Dyn A : Type} (m : M B Func Dyn A)
           (w : World B Func Dyn) : World B Func Dyn := snd (m w).

Definition acts {B Func Dyn A : Type} (m : M B Func Dyn A) (w : World B Func Dyn)
  : list (Action B Func Dyn) :=
  skipn (List.length (trace w)) (trace (world_after m w)).

End hal.

(** ** Package [console]: the broker on standard input and output *)

Module console.
Import GoStrings Regexp hal.
Local Open Scope go_scope.

(** The struct [Broker].  Its two channels are not fields of the model:
    what [Stdin] delivers is the list of lines given to [Stream], and a
    send on [Stdout] is the effect of [Send]. *)
Record Broker : Type := mkBroker { User : string; Room : string }.

(** What the console stores in [Original]: the address of the line
    read, or the address of a [SlashReaction], a string type of its own. *)
Inductive Payload : Type :=
| PtrString (s : string)
| PtrSlashReaction (s : string).

Definition is_reaction (o : option Payload) : bool :=
  match o with
  | Some (PtrSlashReaction _) => true
  | _ => false
  end.

#[export] Instance Broker_BrokerI : BrokerI Broker :=
  {| Name := fun cb => Room cb;
     RoomIdToName := fun _ s => s;
     RoomNameToId := fun _ s => s;
     UserIdToName := fun _ s => s;
     UserNameToId := fun _ s => s |}.

Section Console.

Context {Func : Type} {store : PrefStore}.

Abbreviation Evt := (hal.Evt Broker Func Payload).
Abbreviation M := (hal.M Broker Func Payload).

(** [cb.Stdout <- e.Body]: the text [Send] puts on the channel. *)
Definition Send (cb : Broker) (e : Evt) (Stdout : list string) : list string :=
  (Stdout ++ [Body e])%list.

(** [args[i]], which panics out of range. *)
Definition index (args : list string) (i : nat) : M string :=
  match nth_error args i with
  | Some a => ret a
  | None => panic "runtime error: index out of range"
  end.

(** What one turn of the loop of [Stream] leaves: the local [e] at
    the end of the turn and the event sent on [out], if one was. *)
Record Turn : Type := mkTurn { local_e : Evt; sent : option Evt }.

(** The composite literal of [Stream] for the line [input], with [t]
    for [time.Now()]. *)
Definition Stream_Evt (cb : Broker) (input : string) (t : Z) : Evt :=
  {| ID := "";
     Body := input;
     Command := "";
     Subject := "";
     hal.Room := Room cb;
     RoomId := Room cb;
     hal.User := User cb;
     UserId := User cb;
     Time := t;
     hal.Broker := Some cb;
     IsChat := false;
     IsBot := false;
     ToUser := false;
     ToRoom := false;
     ToFunc := false;
     ReplyFunc := None;
     Original := Some (PtrString input);
     instance := None |}.

Definition Stream_body (cb : Broker) (input : string) : M Turn :=
  t <- now ;;
  let e := Stream_Evt cb input t in
  if HasPrefix (Body e) "/"
  then
    let args := BodyAsArgv e in
    a0 <- index args 0 ;;
    if a0 =? "/reaction"
    then
      if Nat.eqb (List.length args) 2
      then
        a1 <- index args 1 ;;
        let e := set_Body e a1 in
        let e := set_Original e (Some (PtrSlashReaction a1)) in
        ret (mkTurn e None)
      else
        Reply e "/reaction requires exactly one argument!" ;;;
        ret (mkTurn e None)
    else ret (mkTurn e None)
  else ret (mkTurn e (Some e)).

(** The loop of [Stream] over the lines [Stdin] delivers, in order;
    the result lists the events sent on [out]. *)
Fixpoint Stream (cb : Broker) (inputs : list string) : M (list Evt) :=
  match inputs with
  | [] => ret []
  | input :: rest =>
      r <- Stream_body cb input ;;
      forwarded <- Stream cb rest ;;
      ret (match sent r with
           | Some e => e :: forwarded
           | None => forwarded
           end)
  end.

(** *** The rest of the console broker *)

(** [NewBroker]: the user is the value of the environment variable USER,
    or [testuser] when that is empty; the room is the name given.
    [getenv] is [os.Getenv], which gives the empty string for a variable
    that is not set.  The two channels are made empty. *)
Definition NewBroker (getenv : string -> string) (name : string) : Broker :=
  let user := getenv "USER" in
  let user := if user =? "" then "testuser" else user in
  {| User := user; Room := name |}.

(** [cb.Stdout <- hal.Utf8Table(hdr, rows)].  [hal.Utf8Table] is not
    among the sources: it is a parameter. *)
Definition SendTable (Utf8Table : list string -> list (list string) -> string)
           (cb : Broker) (e : Evt) (hdr : list string) (rows : list (list string))
           (Stdout : list string) : list string :=
  (Stdout ++ [Utf8Table hdr rows])%list.

(** What a call that [event.go] makes does to the channel [Stdout] when
    the broker is the console broker.  The console broker of the sources
    has no method [SendDM]: such a call has no meaning here.  The calls
    that do not go to the broker leave the channel as it is. *)
Definition perform (Utf8Table : list string -> list (list string) -> string)
           (a : Action Broker Func Payload) (Stdout : list string)
  : option (list string) :=
  match a with
  | ASend cb e => Some (Send cb e Stdout)
  | ASendTable cb e hdr rows => Some (SendTable Utf8Table cb e hdr rows Stdout)
  | ASendDM _ _ => None
  | AReplyFunc _ _ | AFindKey _ _ | AFindPrefs _ _ _ _ _
  | AGetPref _ _ _ _ _ _ => Some Stdout
  end.

Fixpoint perform_all (Utf8Table : list string -> list (list string) -> string)
         (l : list (Action Broker Func Payload)) (Stdout : list string)
  : option (list string) :=
  match l with
  | [] => Some Stdout
  | a :: l' =>
      match perform Utf8Table a Stdout with
      | Some Stdout' => perform_all Utf8Table l' Stdout'
      | None => None
      end
  end.

(** How a pump ends: its input is used up (the scanner is at its end,
    the channel is empty) or [log.Fatalf] ends the process with a
    message. *)
Inductive Pump : Type :=
| Drained
| Fatal (msg : string).

Definition newline : string := String (ascii_of_nat 10) EmptyString.

(** What the scanner shows after a [Scan] that returned true: the line,
    and the error [Err] reports, if any (with its text). *)
Record Scanned : Type := mkScanned { Text : string; Err : option string }.

(** The loop of [SimpleStdin] over the successful scans, with the lines
    sent on [Stdin] so far.  A send waits while the channel is full; it
    never drops a line. *)
Fixpoint SimpleStdin (scans : list Scanned) (Stdin : list string)
  : Pump * list string :=
  match scans with
  | [] => (Drained, Stdin)
  | sc :: rest =>
      let line := Text sc in
      match Err sc with
      | Some err =>
          (Fatal ("Failed while reading from stdin: " ++ err ++ newline), Stdin)
      | None =>
          if Nat.eqb (String.length line) 0
          then SimpleStdin rest Stdin
          else SimpleStdin rest (Stdin ++ [line])%list
      end
  end.

(** The loop of [SimpleStdout] over the texts waiting on [Stdout], with
    what the terminal shows so far.  [WriteString terminal txt] is
    [os.Stdout.WriteString(txt)]: what the terminal shows after the call,
    and the error of the call, if any. *)
Fixpoint SimpleStdout (WriteString : string -> string -> string * option string)
         (Stdout : list string) (terminal : string) : Pump * string :=
  match Stdout with
  | [] => (Drained, terminal)
  | txt :: rest =>
      match WriteString terminal txt with
      | (terminal', Some err) =>
          (Fatal ("Could not write to stdout: " ++ err ++ newline), terminal')
      | (terminal', None) => SimpleStdout WriteString rest terminal'
      end
  end.

(** A terminal that takes every write whole. *)
Definition healthy (WriteString : string -> string -> string * option string) : Prop :=
  forall terminal txt, WriteString terminal txt = (terminal ++ txt, None).

(** The texts one after the other, nothing between them. *)
Definition concat_all (txts : list string) : string :=
  fold_right append EmptyString txts.

(** [ReplyToRoom] with each of the messages, one after the other. *)
Fixpoint ReplyToRoom_each (e : Evt) (msgs : list string) : M unit :=
  match msgs with
  | [] => ret tt
  | msg :: rest => ReplyToRoom e msg ;;; ReplyToRoom_each e rest
  end.

(** The text of the usage error of the reaction command. *)
Definition usage : string := "/reaction requires exactly one argument!".

End Console.

End console.

(** ** Command lines, as a user writes them *)

Module Argv.
Import GoStrings Regexp.

(** An argument of a command line: a bare word, or a string between
    single or between double quotes. *)
Inductive Arg : Type :=
| Bare (w : string)
| Single (w : string)
| Double (w : string).

(** The argument as it is written, and as it is meant. *)
Definition render (a : Arg) : string :=
  match a with
  | Bare w => w
  | Single w => String squote (w ++ String squote EmptyString)
  | Double w => String dquote (w ++ String dquote EmptyString)
  end.

Definition value (a : Arg) : string :=
  match a with
  | Bare w | Single w | Double w => w
  end.

(** The arguments written one after the other, a blank between two. *)
Fixpoint join (args : list Arg) : string :=
  match args with
  | [] => EmptyString
  | a :: rest =>
      match rest with
      | [] => render a
      | _ :: _ => render a ++ String " " (join rest)
      end
  end.

(** A bare word is not empty, starts with an ASCII byte that is neither
    white space nor a quote, goes on without white space of the
    expression and ends with an ASCII byte that is not white space; a
    quoted string holds no quote of its own kind. *)
Definition well_formed (a : Arg) : Prop :=
  match a with
  | Bare w =>
      match w with
      | EmptyString => False
      | String c m =>
          plain_byte c = true /\ ~ is_quote c
          /\ all_bytes not_space m = true /\ ends_plain w = true
      end
  | Single w => all_bytes (other_than squote) w = true
  | Double w => all_bytes (other_than dquote) w = true
  end.

End Argv.

(** ** Concrete inputs *)

Module Samples.
Import hal console.

(** A store with no preference in it: every lookup misses. *)
Definition empty_store : PrefStore :=
  {| FindKey := fun _ _ => [];
     One := fun ps => match ps with
                      | p :: _ => p
                      | [] => Pref.mk "" "" "" "" "" "" false
                      end;
     FindPrefs := fun _ _ _ _ _ => [];
     GetPref := fun user broker room plugin key default =>
                  Pref.mk user room broker plugin key default false |}.

(** A store in which every scope has [reply-via-dm] set to [true]. *)
Definition dm_store : PrefStore :=
  {| FindKey := fun p key =>
                  [Pref.mk (Pref.User p) (Pref.Room p) (Pref.Broker p)
                           (Pref.Plugin p) key "true" true];
     One := fun ps => match ps with
                      | p :: _ => p
                      | [] => Pref.mk "" "" "" "" "" "" false
                      end;
     FindPrefs := fun _ _ _ _ _ => [];
     GetPref := fun user broker room plugin key default =>
                  Pref.mk user room broker plugin key default false |}.

Definition lobby : Broker := mkBroker "alice" "lobby".

(** A world whose clock reads 1000, 1001, ... and in which nothing has
    happened yet. *)
Definition world0 : World Broker nat Payload :=
  mkWorld (fun n => 1000 + Z.of_nat n)%Z 0 [].

Definition uptime : Plugin.t :=
  Plugin.mk "uptime"
            [Setting.mk "interval" "60" "";
             Setting.mk "quiet" "no" "attic";
             Setting.mk "format" "short" "lobby"].

(** An inbound chat message of alice in the lobby, as a broker would
    hand it to a plugin. *)
Definition hello : Evt Broker nat Payload :=
  {| ID := "m1";
     Body := "hello";
     Command := "";
     Subject := "";
     hal.Room := "lobby";
     RoomId := "lobby";
     hal.User := "alice";
     UserId := "u-alice";
     Time := 990;
     hal.Broker := Some lobby;
     IsChat := true;
     IsBot := false;
     ToUser := false;
     ToRoom := false;
     ToFunc := false;
     ReplyFunc := None;
     Original := Some (PtrString "hello");
     instance := Some (Instance.mk uptime) |}.

Definition with_flags (e : Evt Broker nat Payload) (to_func to_room to_user : bool)
           (f : option nat) : Evt Broker nat Payload :=
  mkEvt (ID e) (Body e) (Command e) (Subject e) (hal.Room e) (RoomId e)
        (hal.User e) (UserId e) (Time e) (hal.Broker e) (IsChat e) (IsBot e)
        to_user to_room to_func f (Original e) (instance e).

(** An environment in which USER is not set, and one in which it is. *)
Definition no_env : string -> string := fun _ => "".

Definition env_bob : string -> string :=
  fun var => if var =? "USER" then "bob" else "".

(** A terminal that takes every write, and a table drawn as its header
    alone. *)
Definition tty : string -> string -> string * option string :=
  fun terminal txt => (terminal ++ txt, None).

Definition bare_table : list string -> list (list string) -> string :=
  fun hdr _ => String.concat " " hdr.

(** A terminal that breaks on the text [boom]. *)
Definition tty_breaks : string -> string -> string * option string :=
  fun terminal txt =>
    if txt =? "boom" then (terminal, Some "broken pipe") else (terminal ++ txt, None).

(** A command line: a bare word, a string in single quotes with a blank
    in it, a string in double quotes with an apostrophe in it, a flag. *)
Definition deploy_args : list Argv.Arg :=
  [Argv.Bare "deploy"; Argv.Single "my app"; Argv.Double "it's"; Argv.Bare "--force"].

(** Three scans without error, one of them of an empty line. *)
Definition typed : list Scanned :=
  [mkScanned "hi" None; mkScanned "" None; mkScanned "/help" None;
   mkScanned "bye" None].

End Samples.

(** ** Lists and strings *)

Unset Implicit Arguments.

Lemma skipn_app_length (A : Type) (l l' : list A) :
  skipn (List.length l) (l ++ l')%list = l'.
Proof.
  induction l as [|a l IH]; simpl; auto.
Qed.

(** [strings.TrimSpace] keeps a string that starts with a plain byte
    up to its trailing white space: the first byte stays where it is. *)

Section TrimFacts.
Import GoStrings.

Variable x : ascii.
Hypothesis plain_x : plain_byte x = true.

Lemma plain_not_space : ascii_space x = false.
Proof.
  unfold plain_byte in plain_x. destruct (ascii_space x); [discriminate|reflexivity].
Qed.

Lemma plain_low : nat_of_ascii x < 128.
Proof.
  unfold plain_byte in plain_x. apply andb_prop in plain_x as [_ H].
  apply Nat.ltb_lt. exact H.
Qed.

Lemma plain_is_not (k : nat) : 128 <= k -> byte_is k x = false.
Proof.
  intros Hk. unfold byte_is. apply Nat.eqb_neq. pose proof plain_low. lia.
Qed.

Lemma rune2_first d : space_rune2 x d = false.
Proof.
  unfold space_rune2. rewrite (plain_is_not 194) by lia. reflexivity.
Qed.

Lemma rune3_first d e : space_rune3 x d e = false.
Proof.
  unfold space_rune3.
  rewrite (plain_is_not 225), (plain_is_not 226), (plain_is_not 227) by lia.
  reflexivity.
Qed.

Lemma TrimLeftSpace_plain s : TrimLeftSpace (String x s) = String x s.
Proof.
  cbn [TrimLeftSpace]. unfold space_rune_len. rewrite plain_not_space.
  destruct s as [|d [|e s]]; [reflexivity| |];
    rewrite rune2_first; [reflexivity|].
  rewrite rune3_first. reflexivity.
Qed.

Lemma append_assoc (s t u : string) : (s ++ t) ++ u = s ++ (t ++ u).
Proof.
  induction s as [|c s IH]; cbn [append]; [reflexivity|]. rewrite IH. reflexivity.
Qed.

Lemma rev_onto_app s : forall acc, rev_onto s acc = rev s ++ acc.
Proof.
  unfold rev. induction s as [|c s IH]; intros acc; cbn [rev_onto].
  - reflexivity.
  - rewrite IH, (IH (String c "")). rewrite append_assoc. reflexivity.
Qed.

Lemma rev_cons c s : rev (String c s) = rev s ++ String c "".
Proof. unfold rev at 1. cbn [rev_onto]. apply rev_onto_app. Qed.

Lemma rev_snoc s : forall c, rev (s ++ String c "") = String c (rev s).
Proof.
  induction s as [|d s IH]; intros c.
  - reflexivity.
  - cbn [append]. rewrite !rev_cons, IH. reflexivity.
Qed.

(** Trimming the reversed string never passes the plain byte. *)
Lemma TrimLeftSpace_rev_stops n :
  forall r, String.length r <= n ->
            exists t, TrimLeftSpace_rev (r ++ String x "") = t ++ String x "".
Proof.
  induction n as [n IH] using lt_wf_ind. intros r Hn.
  destruct r as [|c r1].
  - exists "". cbn. rewrite plain_not_space. reflexivity.
  - cbn [append TrimLeftSpace_rev]. unfold space_rune_len_rev.
    cbn [String.length] in Hn.
    destruct (ascii_space c).
    { apply (IH (String.length r1)); lia. }
    destruct r1 as [|d r2]; cbn [append].
    { rewrite rune2_first. exists (String c ""). reflexivity. }
    destruct (space_rune2 d c).
    { cbn [String.length] in Hn. apply (IH (String.length r2)); lia. }
    destruct r2 as [|c' r3]; cbn [append].
    { rewrite rune3_first. exists (String c (String d "")). reflexivity. }
    destruct (space_rune3 c' d c).
    { cbn [String.length] in Hn. apply (IH (String.length r3)); lia. }
    exists (String c (String d (String c' r3))). reflexivity.
Qed.

Lemma TrimSpace_plain s : exists s', TrimSpace (String x s) = String x s'.
Proof.
  unfold TrimSpace. rewrite TrimLeftSpace_plain. unfold TrimRightSpace.
  rewrite rev_cons.
  destruct (TrimLeftSpace_rev_stops (String.length (rev s)) (rev s) (le_n _))
    as [t Ht].
  rewrite Ht, rev_snoc. exists (rev t). reflexivity.
Qed.

Lemma rune2_second c : space_rune2 c x = false.
Proof.
  unfold space_rune2.
  rewrite (plain_is_not 133), (plain_is_not 160) by lia. apply andb_false_r.
Qed.

Lemma rune3_third c d : space_rune3 c d x = false.
Proof.
  unfold space_rune3. pose proof plain_low as Hlow.
  rewrite (plain_is_not 128), (plain_is_not 159) by lia.
  replace (128 <=? nat_of_ascii x)%nat with false
    by (symmetry; apply Nat.leb_gt; lia).
  replace (Nat.eqb (nat_of_ascii x) 168) with false
    by (symmetry; apply Nat.eqb_neq; lia).
  replace (Nat.eqb (nat_of_ascii x) 169) with false
    by (symmetry; apply Nat.eqb_neq; lia).
  replace (Nat.eqb (nat_of_ascii x) 175) with false
    by (symmetry; apply Nat.eqb_neq; lia).
  cbn [andb orb]. rewrite !andb_false_r. reflexivity.
Qed.

(** A reversed string that starts with a plain byte has nothing to trim. *)
Lemma TrimLeftSpace_rev_plain r : TrimLeftSpace_rev (String x r) = String x r.
Proof.
  cbn [TrimLeftSpace_rev]. unfold space_rune_len_rev. rewrite plain_not_space.
  destruct r as [|d [|c r]]; [reflexivity| |];
    rewrite rune2_second; [reflexivity|].
  rewrite rune3_third. reflexivity.
Qed.

End TrimFacts.

(** ** The tokens of a trimmed string *)

Section TokenFacts.
Import GoStrings Regexp.

Lemma append_nil_r (s : string) : s ++ "" = s.
Proof.
  induction s as [|c s IH]; cbn [append]; [reflexivity|]. rewrite IH. reflexivity.
Qed.

Lemma rev_app (a b : string) : rev (a ++ b) = rev b ++ rev a.
Proof.
  induction a as [|c a IH]; cbn [append].
  - rewrite append_nil_r. reflexivity.
  - rewrite !rev_cons, IH. apply append_assoc.
Qed.

Lemma rev_involutive (s : string) : rev (rev s) = s.
Proof.
  induction s as [|c s IH]; [reflexivity|].
  rewrite rev_cons, rev_snoc, IH. reflexivity.
Qed.

(** What is left of a string trimmed on the left does not start with an
    ASCII space. *)
Lemma TrimLeftSpace_head n :
  forall s, String.length s <= n ->
            match TrimLeftSpace s with
            | EmptyString => True
            | String c _ => ascii_space c = false
            end.
Proof.
  induction n as [n IH] using lt_wf_ind. intros s Hn.
  destruct s as [|c s1]; [exact I|].
  cbn [TrimLeftSpace]. unfold space_rune_len. cbn [String.length] in Hn.
  destruct (ascii_space c) eqn:Ec.
  { apply (IH (String.length s1)); lia. }
  destruct s1 as [|d s2]; [exact Ec|].
  destruct (space_rune2 c d).
  { cbn [String.length] in Hn. apply (IH (String.length s2)); lia. }
  destruct s2 as [|e s3]; [exact Ec|].
  destruct (space_rune3 c d e); [|exact Ec].
  cbn [String.length] in Hn. apply (IH (String.length s3)); lia.
Qed.

(** Trimming the reversed string drops bytes from its front only. *)
Lemma TrimLeftSpace_rev_suffix n :
  forall r, String.length r <= n -> exists p, r = p ++ TrimLeftSpace_rev r.
Proof.
  induction n as [n IH] using lt_wf_ind. intros r Hn.
  destruct r as [|e r1]; [exists ""; reflexivity|].
  cbn [TrimLeftSpace_rev]. unfold space_rune_len_rev. cbn [String.length] in Hn.
  destruct (ascii_space e).
  { destruct (IH (String.length r1) ltac:(lia) r1 (le_n _)) as [p Hp].
    exists (String e p). cbn [append]. rewrite <- Hp. reflexivity. }
  destruct r1 as [|d r2]; [exists ""; reflexivity|].
  destruct (space_rune2 d e).
  { cbn [String.length] in Hn.
    destruct (IH (String.length r2) ltac:(lia) r2 (le_n _)) as [p Hp].
    exists (String e (String d p)). cbn [append]. rewrite <- Hp. reflexivity. }
  destruct r2 as [|c r3]; [exists ""; reflexivity|].
  destruct (space_rune3 c d e); [|exists ""; reflexivity].
  cbn [String.length] in Hn.
  destruct (IH (String.length r3) ltac:(lia) r3 (le_n _)) as [p Hp].
  exists (String e (String d (String c p))). cbn [append]. rewrite <- Hp. reflexivity.
Qed.

Lemma TrimRightSpace_prefix (t : string) : exists q, t = TrimRightSpace t ++ q.
Proof.
  unfold TrimRightSpace.
  destruct (TrimLeftSpace_rev_suffix (String.length (rev t)) (rev t) (le_n _))
    as [p Hp].
  exists (rev p). rewrite <- rev_app, <- Hp. symmetry. apply rev_involutive.
Qed.

(** A trimmed string that is not empty starts with a byte that is not
    an ASCII space. *)
Lemma TrimSpace_head (s : string) c s' :
  TrimSpace s = String c s' -> ascii_space c = false.
Proof.
  unfold TrimSpace. intros H.
  destruct (TrimRightSpace_prefix (TrimLeftSpace s)) as [q Hq].
  rewrite H in Hq. cbn [append] in Hq.
  pose proof (TrimLeftSpace_head (String.length s) s (le_n _)) as Hh.
  rewrite Hq in Hh. exact Hh.
Qed.

(** The five bytes of the class of white space of the expression are
    ASCII spaces. *)
Lemma perl_space_ascii_space c : perl_space c = true -> ascii_space c = true.
Proof.
  unfold perl_space, ascii_space. intros H.
  repeat (apply orb_prop in H as [H|H]);
    apply Nat.eqb_eq in H; rewrite H; reflexivity.
Qed.

(** At a byte that is no white space of the expression a match starts. *)
Lemma FindAllString_starts c s :
  perl_space c = false ->
  exists m ms, FindAllString (String c s) = m :: ms.
Proof.
  intros Hc. unfold FindAllString. cbn [scan]. unfold match_here.
  destruct (quoted_here squote (String c s)); [eexists; eexists; reflexivity|].
  destruct (quoted_here dquote (String c s)); [eexists; eexists; reflexivity|].
  cbn [nonspace_run]. rewrite Hc. eexists; eexists; reflexivity.
Qed.

End TokenFacts.

(** ** The matches of the expression *)

Section RegexpFacts.
Import GoStrings Regexp.

Lemma take_drop n : forall s, s = take n s ++ drop n s.
Proof.
  induction n as [|n IH]; intros [|c s]; cbn [take drop append]; try reflexivity.
  rewrite <- IH. reflexivity.
Qed.

Lemma drop_length n : forall s, String.length (drop n s) <= String.length s.
Proof.
  induction n as [|n IH]; intros [|c s]; cbn [drop String.length]; try lia.
  specialize (IH s). lia.
Qed.

Lemma take_app_length a : forall b, take (String.length a) (a ++ b) = a.
Proof.
  induction a as [|c a IH]; intros b; cbn [String.length append take].
  - destruct b; reflexivity.
  - rewrite IH. reflexivity.
Qed.

Lemma drop_app_length a : forall b, drop (String.length a) (a ++ b) = b.
Proof.
  induction a as [|c a IH]; intros b; cbn [String.length append drop].
  - destruct b; reflexivity.
  - apply IH.
Qed.

(** The scan with [k] bytes to pass is the scan of what comes after them. *)
Lemma scan_skip : forall s k, scan k s = scan 0 (drop k s).
Proof.
  induction s as [|c s IH]; intros [|k]; try reflexivity.
  cbn [scan drop]. apply IH.
Qed.

Lemma close_quote_some q : forall s k,
  close_quote q s = Some k ->
  exists inner rest,
    s = inner ++ String q rest
    /\ all_bytes (other_than q) inner = true
    /\ k = S (String.length inner).
Proof.
  induction s as [|c s IH]; intros k H; cbn [close_quote] in H; [discriminate|].
  destruct (Ascii.eqb c q) eqn:E.
  - injection H as <-. apply Ascii.eqb_eq in E as ->.
    exists "", s. repeat split.
  - destruct (close_quote q s) as [k'|]; [|discriminate]. injection H as <-.
    destruct (IH k' eq_refl) as (inner & rest & -> & Hin & ->).
    exists (String c inner), rest. cbn [append all_bytes String.length].
    unfold other_than at 1. rewrite E. repeat split. exact Hin.
Qed.

Lemma close_quote_none q : forall s,
  close_quote q s = None -> all_bytes (other_than q) s = true.
Proof.
  induction s as [|c s IH]; intros H; cbn [close_quote] in H; [reflexivity|].
  destruct (Ascii.eqb c q) eqn:E; [discriminate|].
  destruct (close_quote q s); [discriminate|].
  cbn [all_bytes]. unfold other_than at 1. rewrite E. apply IH. reflexivity.
Qed.

Lemma quoted_here_some q s n :
  quoted_here q s = Some n ->
  exists inner rest,
    s = String q (inner ++ String q rest)
    /\ all_bytes (other_than q) inner = true
    /\ n = S (S (String.length inner)).
Proof.
  destruct s as [|c s]; cbn [quoted_here]; [discriminate|].
  destruct (Ascii.eqb c q) eqn:E; [|discriminate].
  destruct (close_quote q s) as [k|] eqn:Hk; [|discriminate].
  intros H. injection H as <-. apply Ascii.eqb_eq in E as ->.
  destruct (close_quote_some q s k Hk) as (inner & rest & -> & Hin & ->).
  exists inner, rest. repeat split. exact Hin.
Qed.

Lemma quoted_here_none q s :
  quoted_here q (String q s) = None -> all_bytes (other_than q) s = true.
Proof.
  cbn [quoted_here]. rewrite Ascii.eqb_refl.
  destruct (close_quote q s) eqn:Hk; [discriminate|].
  intros _. apply close_quote_none. exact Hk.
Qed.

Lemma nonspace_run_spec : forall s,
  all_bytes not_space (take (nonspace_run s) s) = true
  /\ at_boundary (drop (nonspace_run s) s).
Proof.
  induction s as [|c s [IH1 IH2]]; [split; [reflexivity|exact I]|].
  cbn [nonspace_run]. destruct (perl_space c) eqn:E.
  - split; [reflexivity|exact E].
  - cbn [take drop all_bytes]. unfold not_space at 1. rewrite E.
    split; [exact IH1|exact IH2].
Qed.

Lemma take_quoted q rest : forall inner,
  take (S (String.length inner)) (inner ++ String q rest) = inner ++ String q "".
Proof.
  induction inner as [|c inner IH]; cbn [String.length append take].
  - destruct rest; reflexivity.
  - cbn [String.length append take] in IH. rewrite IH. reflexivity.
Qed.

Lemma drop_quoted q rest : forall inner,
  drop (S (String.length inner)) (inner ++ String q rest) = rest.
Proof.
  induction inner as [|c inner IH]; cbn [String.length append drop].
  - destruct rest; reflexivity.
  - exact IH.
Qed.

Lemma length_quoted q rest : forall inner,
  String.length (inner ++ String q rest)
  = String.length inner + S (String.length rest).
Proof.
  induction inner as [|c inner IH]; cbn [String.length append]; [reflexivity|].
  rewrite IH. reflexivity.
Qed.

(** The step of the scan at a quoted run. *)
Lemma scan_quoted q inner rest :
  is_quote q -> all_bytes (other_than q) inner = true ->
  Tokens rest (scan 0 rest) ->
  Tokens (String q (inner ++ String q rest))
         (take (S (S (String.length inner))) (String q (inner ++ String q rest))
          :: scan (S (S (String.length inner)) - 1) (inner ++ String q rest)).
Proof.
  intros Hq Hin Hrest.
  change (S (S (String.length inner)) - 1) with (S (String.length inner) - 0).
  rewrite Nat.sub_0_r, scan_skip, drop_quoted.
  change (take (S (S (String.length inner))) (String q (inner ++ String q rest)))
    with (String q (take (S (String.length inner)) (inner ++ String q rest))).
  rewrite take_quoted. apply Tokens_quoted; assumption.
Qed.

(** The scan finds the matches the relation describes. *)
Lemma scan_Tokens n :
  forall s, String.length s <= n -> Tokens s (scan 0 s).
Proof.
  induction n as [n IH] using lt_wf_ind. intros s Hn.
  destruct s as [|c s']; [constructor|].
  cbn [scan]. unfold match_here. cbn [String.length] in Hn.
  destruct (quoted_here squote (String c s')) as [k|] eqn:Hs.
  { destruct (quoted_here_some _ _ _ Hs) as (inner & rest & Heq & Hin & ->).
    injection Heq as -> ->.
    apply scan_quoted; [left; reflexivity|exact Hin|].
    rewrite length_quoted in Hn.
    apply (IH (String.length rest)); lia. }
  destruct (quoted_here dquote (String c s')) as [k|] eqn:Hd.
  { destruct (quoted_here_some _ _ _ Hd) as (inner & rest & Heq & Hin & ->).
    injection Heq as -> ->.
    apply scan_quoted; [right; reflexivity|exact Hin|].
    rewrite length_quoted in Hn.
    apply (IH (String.length rest)); lia. }
  cbn [nonspace_run]. destruct (perl_space c) eqn:Ec.
  { apply Tokens_space; [exact Ec|]. apply (IH (String.length s')); lia. }
  change (S (nonspace_run s') - 1) with (nonspace_run s' - 0).
  rewrite Nat.sub_0_r, scan_skip.
  change (take (S (nonspace_run s')) (String c s'))
    with (String c (take (nonspace_run s') s')).
  destruct (nonspace_run_spec s') as [Hrun Hb].
  rewrite (take_drop (nonspace_run s') s') at 1.
  apply Tokens_run; [exact Ec|exact Hrun|exact Hb| |].
  - rewrite <- take_drop. intros [->| ->];
      [exact (quoted_here_none _ _ Hs)|exact (quoted_here_none _ _ Hd)].
  - apply (IH (String.length (drop (nonspace_run s') s'))); [|apply le_n].
    pose proof (drop_length (nonspace_run s') s'). lia.
Qed.

(** [FindAllString] returns the matches the relation describes. *)
Theorem FindAllString_Tokens s : Tokens s (FindAllString s).
Proof. exact (scan_Tokens (String.length s) s (le_n _)). Qed.

(** *** Removing the outer quotes *)

Lemma all_bytes_app p a : forall b,
  all_bytes p (a ++ b) = all_bytes p a && all_bytes p b.
Proof.
  induction a as [|c a IH]; intros b; cbn [append all_bytes]; [reflexivity|].
  rewrite IH. apply andb_assoc.
Qed.

Lemma HasPrefix_same q s : HasPrefix (String q s) (String q "") = true.
Proof.
  unfold HasPrefix. cbn [String.prefix].
  destruct (ascii_dec q q) as [_|N]; [destruct s; reflexivity|congruence].
Qed.

Lemma HasPrefix_other c q s : c <> q -> HasPrefix (String c s) (String q "") = false.
Proof.
  intros N. unfold HasPrefix. cbn [String.prefix].
  destruct (ascii_dec q c) as [E|_]; [congruence|reflexivity].
Qed.

Lemma HasSuffix_snoc a q : HasSuffix (a ++ String q "") (String q "") = true.
Proof.
  unfold HasSuffix. rewrite length_quoted. cbn [String.length].
  replace (String.length a + 1 - 1) with (String.length a) by lia.
  rewrite drop_app_length, String.eqb_refl.
  destruct (String.length a + 1) eqn:E; [lia|reflexivity].
Qed.

Lemma TrimSuffix_snoc a q : TrimSuffix (a ++ String q "") (String q "") = a.
Proof.
  unfold TrimSuffix. rewrite HasSuffix_snoc, length_quoted. cbn [String.length].
  replace (String.length a + 1 - 1) with (String.length a) by lia.
  apply take_app_length.
Qed.

Lemma HasSuffix_cons c d s q :
  HasSuffix (String c (String d s)) (String q "") = HasSuffix (String d s) (String q "").
Proof.
  unfold HasSuffix. cbn [String.length].
  replace (S (S (String.length s)) - 1) with (S (String.length s)) by lia.
  replace (S (String.length s) - 1) with (String.length s) by lia.
  reflexivity.
Qed.

Lemma HasSuffix_none q : forall s,
  all_bytes (other_than q) s = true -> HasSuffix s (String q "") = false.
Proof.
  induction s as [|c s IH]; intros H; [reflexivity|].
  cbn [all_bytes] in H. apply andb_prop in H as [Hc Hs].
  destruct s as [|d s].
  - unfold HasSuffix. cbn. unfold other_than in Hc.
    destruct (Ascii.eqb c q); [discriminate|reflexivity].
  - rewrite HasSuffix_cons. apply IH. exact Hs.
Qed.

Lemma unquote_quoted q inner :
  is_quote q -> all_bytes (other_than q) inner = true ->
  hal.unquote (String q (inner ++ String q "")) = inner.
Proof.
  intros Hq Hin. unfold hal.unquote.
  change (String q (inner ++ String q "")) with ((String q inner) ++ String q "").
  destruct Hq as [-> | ->].
  - rewrite HasSuffix_snoc. cbn [append]. rewrite HasPrefix_same. cbn [andb].
    unfold TrimPrefix. rewrite HasPrefix_same. cbn [String.length drop].
    apply TrimSuffix_snoc.
  - cbn [append].
    rewrite (HasPrefix_other dquote squote) by (intros E; discriminate E).
    cbn [andb].
    change (String dquote (inner ++ String dquote ""))
      with ((String dquote inner) ++ String dquote "").
    rewrite HasSuffix_snoc. cbn [append]. rewrite HasPrefix_same. cbn [andb].
    unfold TrimPrefix. rewrite HasPrefix_same. cbn [String.length drop].
    apply TrimSuffix_snoc.
Qed.

Lemma unquote_run c r :
  (is_quote c -> all_bytes (other_than c) r = true) ->
  r <> "" \/ ~ is_quote c ->
  hal.unquote (String c r) = String c r.
Proof.
  intros Hno Hr. unfold hal.unquote.
  assert (forall q, is_quote q ->
                    HasPrefix (String c r) (String q "")
                    && HasSuffix (String c r) (String q "") = false) as Hq.
  { intros q Hq. destruct (ascii_dec c q) as [->|N].
    - destruct r as [|d r]; [destruct Hr as [Hr|Hr]; [congruence|contradiction]|].
      rewrite HasSuffix_cons, (HasSuffix_none q (String d r) (Hno Hq)).
      apply andb_false_r.
    - rewrite (HasPrefix_other c q r N). reflexivity. }
  rewrite (Hq squote (or_introl eq_refl)), (Hq dquote (or_intror eq_refl)).
  reflexivity.
Qed.

(** Each match stands for its token. *)
Lemma Tokens_token_of s ms :
  Tokens s ms -> Forall (fun m => token_of m (hal.unquote m)) ms.
Proof.
  induction 1 as [|c s ms Hc _ IH|q inner rest ms Hq Hin _ IH
                  |c m rest ms Hc Hm Hb Hno _ IH].
  - constructor.
  - exact IH.
  - constructor; [|exact IH]. left. exists q, inner.
    repeat split; try assumption. apply unquote_quoted; assumption.
  - constructor; [|exact IH].
    assert (is_quote c -> all_bytes (other_than c) m = true) as Hno'.
    { intros Hq. specialize (Hno Hq). rewrite all_bytes_app in Hno.
      apply andb_prop in Hno as [Hno _]. exact Hno. }
    destruct m as [|d m].
    + destruct (ascii_dec c squote) as [->|Ns];
        [right; right; exists squote; repeat split; left; reflexivity|].
      destruct (ascii_dec c dquote) as [->|Nd];
        [right; right; exists dquote; repeat split; right; reflexivity|].
      right; left. exists c, "". split; [reflexivity|].
      split; [cbn [all_bytes]; unfold not_space; rewrite Hc; reflexivity|].
      split; [exact Hno'|].
      split; [intros [[E|E] _]; contradiction|].
      apply unquote_run; [exact Hno'|right; intros [E|E]; contradiction].
    + right; left. exists c, (String d m). split; [reflexivity|].
      split.
      { cbn [all_bytes] in *. unfold not_space at 1. rewrite Hc. exact Hm. }
      split; [exact Hno'|].
      split; [intros [_ E]; discriminate E|].
      apply unquote_run; [exact Hno'|left; discriminate].
Qed.

Lemma snoc_inj x : forall a b, a ++ String x "" = b ++ String x "" -> a = b.
Proof.
  induction a as [|c a IH]; intros [|d b] H; cbn [append] in H.
  - reflexivity.
  - injection H as _ H. destruct b; discriminate H.
  - injection H as _ H. destruct a; discriminate H.
  - injection H as -> H. rewrite (IH b H). reflexivity.
Qed.

Lemma closed_has_quote q inner :
  all_bytes (other_than q) (inner ++ String q "") = false.
Proof.
  rewrite all_bytes_app. cbn [all_bytes]. unfold other_than at 2.
  rewrite Ascii.eqb_refl. cbn [negb andb]. apply andb_false_r.
Qed.

(** A match stands for one token only. *)
Lemma token_of_functional m t t' : token_of m t -> token_of m t' -> t = t'.
Proof.
  intros [(q & inner & Hq & Hin & Hm & ->)
         |[(c & r & Hm & _ & Hno & Hlone & ->)|(q & Hq & Hm & ->)]]
         [(q' & inner' & Hq' & Hin' & Hm' & ->)
         |[(c' & r' & Hm' & _ & Hno' & Hlone' & ->)|(q' & Hq' & Hm' & ->)]];
    subst m.
  - injection Hm' as -> H. apply (snoc_inj q'). exact H.
  - exfalso. injection Hm' as <- <-.
    rewrite (closed_has_quote q inner) in Hno'. discriminate (Hno' Hq).
  - exfalso. injection Hm' as _ H. destruct inner; discriminate H.
  - exfalso. injection Hm' as -> ->.
    rewrite (closed_has_quote q' inner') in Hno. discriminate (Hno Hq').
  - reflexivity.
  - exfalso. injection Hm' as -> ->. apply Hlone. split; [exact Hq'|reflexivity].
  - exfalso. injection Hm' as _ H. destruct inner'; discriminate H.
  - exfalso. injection Hm' as <- <-. apply Hlone'. split; [exact Hq|reflexivity].
  - reflexivity.
Qed.

Lemma tokens_of_functional : forall ms ts ts',
  Forall2 token_of ms ts -> Forall2 token_of ms ts' -> ts = ts'.
Proof.
  induction ms as [|m ms IH]; intros ts ts' H H'; inversion H; inversion H'; subst.
  - reflexivity.
  - f_equal; [eapply token_of_functional; eassumption|apply IH; assumption].
Qed.

End RegexpFacts.

(** ** The relation says all there is about the matches *)

Section RegexpComplete.
Import GoStrings Regexp.

Lemma close_quote_app q rest : forall inner,
  all_bytes (other_than q) inner = true ->
  close_quote q (inner ++ String q rest) = Some (S (String.length inner)).
Proof.
  induction inner as [|c inner IH]; intros H; cbn [append close_quote String.length].
  - rewrite Ascii.eqb_refl. reflexivity.
  - cbn [all_bytes] in H. apply andb_prop in H as [Hc Hin].
    unfold other_than in Hc. destruct (Ascii.eqb c q); [discriminate|].
    rewrite (IH Hin). reflexivity.
Qed.

Lemma close_quote_all q : forall s,
  all_bytes (other_than q) s = true -> close_quote q s = None.
Proof.
  induction s as [|c s IH]; intros H; cbn [close_quote]; [reflexivity|].
  cbn [all_bytes] in H. apply andb_prop in H as [Hc Hs].
  unfold other_than in Hc. destruct (Ascii.eqb c q); [discriminate|].
  rewrite (IH Hs). reflexivity.
Qed.

Lemma nonspace_run_app rest : forall m,
  all_bytes not_space m = true -> at_boundary rest ->
  nonspace_run (m ++ rest) = String.length m.
Proof.
  induction m as [|c m IH]; intros Hm Hb; cbn [append String.length].
  - destruct rest as [|c rest]; [reflexivity|].
    cbn [nonspace_run]. cbn [at_boundary] in Hb. rewrite Hb. reflexivity.
  - cbn [all_bytes] in Hm. apply andb_prop in Hm as [Hc Hm].
    cbn [nonspace_run]. unfold not_space in Hc.
    destruct (perl_space c); [discriminate|]. rewrite (IH Hm Hb). reflexivity.
Qed.

Lemma quote_not_space q : is_quote q -> perl_space q = false.
Proof. intros [-> | ->]; reflexivity. Qed.

Lemma quoted_here_other q c s : c <> q -> quoted_here q (String c s) = None.
Proof.
  intros N. cbn [quoted_here]. destruct (Ascii.eqb c q) eqn:E; [|reflexivity].
  apply Ascii.eqb_eq in E. contradiction.
Qed.

Lemma quoted_here_closed q inner rest :
  all_bytes (other_than q) inner = true ->
  quoted_here q (String q (inner ++ String q rest))
  = Some (S (S (String.length inner))).
Proof.
  intros H. cbn [quoted_here]. rewrite Ascii.eqb_refl, (close_quote_app q rest inner H).
  reflexivity.
Qed.

Lemma quoted_here_open q c s :
  (c = q -> all_bytes (other_than q) s = true) ->
  quoted_here q (String c s) = None.
Proof.
  intros H. destruct (ascii_dec c q) as [->|N].
  - cbn [quoted_here]. rewrite Ascii.eqb_refl, (close_quote_all q s (H eq_refl)).
    reflexivity.
  - apply quoted_here_other. exact N.
Qed.

(** The step of the scan at a match of [n] bytes. *)
Lemma scan_match c s n :
  match_here (String c s) = Some (S n) ->
  scan 0 (String c s) = String c (take n s) :: scan 0 (drop n s).
Proof.
  intros H. cbn [scan]. rewrite H.
  change (S n - 1) with (n - 0). rewrite Nat.sub_0_r, scan_skip. reflexivity.
Qed.

(** What the relation describes is what the scan finds. *)
Lemma Tokens_scan s ms : Tokens s ms -> scan 0 s = ms.
Proof.
  induction 1 as [|c s ms Hc _ IH|q inner rest ms Hq Hin _ IH
                  |c m rest ms Hc Hm Hb Hno _ IH].
  - reflexivity.
  - cbn [scan]. unfold match_here.
    rewrite (quoted_here_other squote c s), (quoted_here_other dquote c s);
      try (intros ->; discriminate Hc).
    cbn [nonspace_run]. rewrite Hc. exact IH.
  - rewrite (scan_match q (inner ++ String q rest) (S (String.length inner))).
    + rewrite take_quoted, drop_quoted, IH. reflexivity.
    + unfold match_here. destruct Hq as [-> | ->].
      * rewrite (quoted_here_closed squote inner rest Hin). reflexivity.
      * rewrite (quoted_here_other squote dquote) by discriminate.
        rewrite (quoted_here_closed dquote inner rest Hin). reflexivity.
  - rewrite (scan_match c (m ++ rest) (String.length m)).
    + rewrite take_app_length, drop_app_length, IH. reflexivity.
    + unfold match_here.
      rewrite (quoted_here_open squote c (m ++ rest))
        by (intros ->; apply Hno; left; reflexivity).
      rewrite (quoted_here_open dquote c (m ++ rest))
        by (intros ->; apply Hno; right; reflexivity).
      cbn [nonspace_run]. rewrite Hc, (nonspace_run_app rest m Hm Hb). reflexivity.
Qed.

(** X14: the matches [FindAllString] returns are those the relation
    describes, and no others: the relation determines them. *)
Theorem FindAllString_iff_Tokens s ms : FindAllString s = ms <-> Tokens s ms.
Proof.
  split.
  - intros <-. apply FindAllString_Tokens.
  - apply Tokens_scan.
Qed.

End RegexpComplete.

(** ** Command lines and their tokens *)

Section RoundTrip.
Import GoStrings Regexp Argv.

Lemma ends_plain_rev : forall s,
  ends_plain s = true -> exists x r, rev s = String x r /\ plain_byte x = true.
Proof.
  induction s as [|c s IH]; cbn [ends_plain]; [discriminate|].
  destruct s as [|d s].
  - intros H. exists c, "". split; [reflexivity|exact H].
  - intros H. destruct (IH H) as (x & r & Hr & Hx).
    exists x, (r ++ String c ""). rewrite rev_cons, Hr. split; [reflexivity|exact Hx].
Qed.

Lemma ends_plain_app a : forall b, b <> "" -> ends_plain (a ++ b) = ends_plain b.
Proof.
  induction a as [|c a IH]; intros b Hb; cbn [append]; [reflexivity|].
  cbn [ends_plain]. rewrite (IH b Hb).
  destruct (a ++ b) eqn:E; [|reflexivity].
  destruct a; cbn [append] in E; [contradiction|discriminate].
Qed.

(** [strings.TrimSpace] leaves alone a string that starts and ends with
    plain bytes. *)
Lemma TrimSpace_fixed x s :
  plain_byte x = true -> ends_plain (String x s) = true ->
  TrimSpace (String x s) = String x s.
Proof.
  intros Hx He. unfold TrimSpace. rewrite (TrimLeftSpace_plain x Hx).
  unfold TrimRightSpace.
  destruct (ends_plain_rev _ He) as (y & r & Hr & Hy).
  rewrite Hr, (TrimLeftSpace_rev_plain y Hy), <- Hr. apply rev_involutive.
Qed.

Lemma plain_not_perl_space c : plain_byte c = true -> perl_space c = false.
Proof.
  intros H. destruct (perl_space c) eqn:E; [|reflexivity].
  apply perl_space_ascii_space in E. rewrite (plain_not_space c H) in E. discriminate.
Qed.

(** A well-formed argument is written with a plain byte first and a
    plain byte last, and it is not empty. *)
Lemma render_shape a :
  well_formed a ->
  exists x s, render a = String x s /\ plain_byte x = true
              /\ ends_plain (render a) = true.
Proof.
  destruct a as [[|c m]|w|w]; cbn [well_formed render].
  - contradiction.
  - intros (Hc & _ & _ & He). exists c, m. repeat split; assumption.
  - intros _. exists squote, (w ++ String squote ""). repeat split.
    change (String squote (w ++ String squote ""))
      with ((String squote w) ++ String squote "").
    rewrite ends_plain_app by discriminate. reflexivity.
  - intros _. exists dquote, (w ++ String dquote ""). repeat split.
    change (String dquote (w ++ String dquote ""))
      with ((String dquote w) ++ String dquote "").
    rewrite ends_plain_app by discriminate. reflexivity.
Qed.

Lemma join_cons a b rest :
  join (a :: b :: rest) = render a ++ String " " (join (b :: rest)).
Proof. reflexivity. Qed.

Lemma join_shape : forall args,
  Forall well_formed args -> args <> [] ->
  exists x s, join args = String x s /\ plain_byte x = true
              /\ ends_plain (join args) = true.
Proof.
  induction args as [|a rest IH]; intros Hwf Hne; [contradiction|].
  inversion Hwf as [|? ? Ha Hrest]; subst.
  destruct (render_shape a Ha) as (x & s & Hr & Hx & He).
  destruct rest as [|b rest].
  - exists x, s. cbn [join]. repeat split; assumption.
  - destruct (IH Hrest ltac:(discriminate)) as (y & t & Hj & _ & He').
    rewrite join_cons, Hr.
    exists x, (s ++ String " " (join (b :: rest))). split; [reflexivity|].
    split; [exact Hx|].
    rewrite ends_plain_app by discriminate.
    rewrite Hj in *. exact He'.
Qed.

(** The match of a well-formed argument, with what follows it. *)
Lemma render_Tokens a rest ms :
  well_formed a -> at_boundary rest -> Tokens rest ms ->
  Tokens (render a ++ rest) (render a :: ms).
Proof.
  destruct a as [[|c m]|w|w]; cbn [well_formed render]; intros Hwf Hb Hrest.
  - contradiction.
  - destruct Hwf as (Hc & Hq & Hm & _). cbn [append].
    apply Tokens_run; try assumption.
    + apply plain_not_perl_space. exact Hc.
    + intros Q. contradiction.
  - cbn [append]. rewrite append_assoc. cbn [append].
    apply Tokens_quoted; [left; reflexivity|exact Hwf|exact Hrest].
  - cbn [append]. rewrite append_assoc. cbn [append].
    apply Tokens_quoted; [right; reflexivity|exact Hwf|exact Hrest].
Qed.

Lemma join_Tokens : forall args,
  Forall well_formed args -> Tokens (join args) (map render args).
Proof.
  induction args as [|a rest IH]; intros Hwf; [constructor|].
  inversion Hwf as [|? ? Ha Hrest]; subst.
  destruct rest as [|b rest].
  - cbn [join map]. rewrite <- (append_nil_r (render a)) at 1.
    apply render_Tokens; [exact Ha|exact I|constructor].
  - rewrite join_cons.
    change (map render (a :: b :: rest)) with (render a :: map render (b :: rest)).
    apply render_Tokens; [exact Ha|reflexivity|].
    apply Tokens_space; [reflexivity|]. apply IH. exact Hrest.
Qed.

Lemma unquote_render a : well_formed a -> hal.unquote (render a) = value a.
Proof.
  destruct a as [[|c m]|w|w]; cbn [well_formed render value].
  - contradiction.
  - intros (_ & Hq & _ & _). apply unquote_run; [intros Q; contradiction|].
    right. exact Hq.
  - intros H. apply unquote_quoted; [left; reflexivity|exact H].
  - intros H. apply unquote_quoted; [right; reflexivity|exact H].
Qed.

End RoundTrip.

(** ** The envelope: stepping lemmas *)

Section EnvelopeFacts.
Import hal.

Context {B Func Dyn : Type} {broker_impl : BrokerI B} {store : PrefStore}.

Implicit Types (e : Evt B Func Dyn) (w : World B Func Dyn) (msg : string).

Lemma Clone_steps e w : Clone e w = (Ok (Clone_at e (clock w (tick w))), ticked w).
Proof. reflexivity. Qed.

Lemma ReplyDM_attached e msg w b :
  Broker e = Some b ->
  ReplyDM e msg w = (Ok tt, logged (ticked w) (ASendDM b (outgoing e msg w))).
Proof.
  intros Hb. unfold ReplyDM, bind. rewrite Clone_steps, Hb. reflexivity.
Qed.

Lemma ReplyDM_detached e msg w :
  Broker e = None -> ReplyDM e msg w = (Panic nil_dereference, ticked w).
Proof.
  intros Hb. unfold ReplyDM, bind. rewrite Clone_steps, Hb. reflexivity.
Qed.

Lemma ReplyToRoom_attached e msg w b :
  Broker e = Some b ->
  ReplyToRoom e msg w = (Ok tt, logged (ticked w) (ASend b (outgoing e msg w))).
Proof.
  intros Hb. unfold ReplyToRoom, bind. rewrite Clone_steps, Hb. reflexivity.
Qed.

Lemma ReplyToRoom_detached e msg w :
  Broker e = None ->
  ReplyToRoom e msg w = (Panic "hal.Evt.Reply called with nil Broker!", ticked w).
Proof.
  intros Hb. unfold ReplyToRoom, bind. rewrite Clone_steps, Hb. reflexivity.
Qed.

Lemma ReplyTable_attached e hdr rows w b :
  Broker e = Some b ->
  ReplyTable e hdr rows w
  = (Ok tt, logged (ticked w) (ASendTable b (Clone_at e (clock w (tick w))) hdr rows)).
Proof.
  intros Hb. unfold ReplyTable, bind. rewrite Clone_steps, Hb. reflexivity.
Qed.

Lemma ReplyTable_detached e hdr rows w :
  Broker e = None ->
  ReplyTable e hdr rows w
  = (Panic "hal.Evt.ReplyTable called with nil Broker!", ticked w).
Proof.
  intros Hb. unfold ReplyTable, bind. rewrite Clone_steps, Hb. reflexivity.
Qed.

(** The actions of a computation whose final world is [w] with [l]
    appended to the trace. *)
Lemma acts_of_trace (A : Type) (m : M B Func Dyn A) w l :
  trace (snd (m w)) = (trace w ++ l)%list -> acts m w = l.
Proof.
  intros H. unfold acts, world_after. rewrite H. apply skipn_app_length.
Qed.

Lemma acts_logged_ticked (A : Type) (m : M B Func Dyn A) w r a :
  m w = (r, logged (ticked w) a) -> acts m w = [a].
Proof.
  intros H. apply acts_of_trace. rewrite H. reflexivity.
Qed.

Lemma acts_ticked (A : Type) (m : M B Func Dyn A) w r :
  m w = (r, ticked w) -> acts m w = [].
Proof.
  intros H. apply acts_of_trace. rewrite H. simpl. symmetry. apply app_nil_r.
Qed.

Lemma acts_unchanged (A : Type) (m : M B Func Dyn A) w r :
  m w = (r, w) -> acts m w = [].
Proof.
  intros H. apply acts_of_trace. rewrite H. simpl. symmetry. apply app_nil_r.
Qed.

Lemma run_of (A : Type) (m : M B Func Dyn A) w r w' : m w = (r, w') -> run m w = r.
Proof. intros H. unfold run. rewrite H. reflexivity. Qed.

(** X10: what [Clone] keeps and what it resets, field by field: the identity
    and routing fields are those of the envelope, body, command and
    subject are empty, the timestamp is the reading of the clock, the
    payload [Original] is copied, and the flags, the reply function and
    the instance metadata are not carried over. *)
Theorem Clone_fields e w :
  exists c,
    run (Clone e) w = Ok c
    /\ (ID c = ID e /\ Room c = Room e /\ RoomId c = RoomId e /\ User c = User e
        /\ UserId c = UserId e /\ Broker c = Broker e /\ IsChat c = IsChat e
        /\ IsBot c = IsBot e)
    /\ (Body c = "" /\ Command c = "" /\ Subject c = "")
    /\ Time c = clock w (tick w)
    /\ Original c = Original e
    /\ (ToFunc c = false /\ ToRoom c = false /\ ToUser c = false
        /\ ReplyFunc c = None /\ instance c = None).
Proof.
  exists (Clone_at e (clock w (tick w))). repeat split.
Qed.

(** C5: with no broker attached the room path and the direct-message
    path both panic, having sent nothing; with a broker [b] attached the
    room path clones the envelope, sets the body of the clone to the
    message and passes it to [b.Send], and the direct-message path does
    the same with [b.SendDM].  The envelope [out] that is passed has the
    message as its body and every other field as the clone [c] has it. *)
Theorem reply_paths_broker e msg w :
  match Broker e with
  | None =>
      (exists m, run (ReplyToRoom e msg) w = Panic m)
      /\ (exists m, run (ReplyDM e msg) w = Panic m)
      /\ acts (ReplyToRoom e msg) w = []
      /\ acts (ReplyDM e msg) w = []
  | Some b =>
      exists c out,
        run (Clone e) w = Ok c
        /\ out = set_Body c msg
        /\ Body out = msg
        /\ (ID out = ID c /\ Command out = Command c /\ Subject out = Subject c
            /\ Room out = Room c /\ RoomId out = RoomId c
            /\ User out = User c /\ UserId out = UserId c
            /\ Time out = Time c /\ Broker out = Broker c
            /\ IsChat out = IsChat c /\ IsBot out = IsBot c
            /\ ToUser out = ToUser c /\ ToRoom out = ToRoom c
            /\ ToFunc out = ToFunc c /\ ReplyFunc out = ReplyFunc c
            /\ Original out = Original c /\ instance out = instance c)
        /\ run (ReplyToRoom e msg) w = Ok tt
        /\ acts (ReplyToRoom e msg) w = [ASend b out]
        /\ run (ReplyDM e msg) w = Ok tt
        /\ acts (ReplyDM e msg) w = [ASendDM b out]
  end.
Proof.
  destruct (Broker e) as [b|] eqn:Hb.
  - exists (Clone_at e (clock w (tick w))),
           (set_Body (Clone_at e (clock w (tick w))) msg).
    pose proof (ReplyToRoom_attached e msg w b Hb) as Hr.
    pose proof (ReplyDM_attached e msg w b Hb) as Hd.
    split; [reflexivity|].
    split; [reflexivity|].
    split; [reflexivity|].
    split; [repeat split|].
    split; [exact (run_of _ _ _ _ _ Hr)|].
    split; [exact (acts_logged_ticked _ _ _ _ _ Hr)|].
    split; [exact (run_of _ _ _ _ _ Hd)|exact (acts_logged_ticked _ _ _ _ _ Hd)].
  - pose proof (ReplyToRoom_detached e msg w Hb) as Hr.
    pose proof (ReplyDM_detached e msg w Hb) as Hd.
    split; [eexists; exact (run_of _ _ _ _ _ Hr)|].
    split; [eexists; exact (run_of _ _ _ _ _ Hd)|].
    split; [exact (acts_ticked _ _ _ _ Hr)|exact (acts_ticked _ _ _ _ Hd)].
Qed.

(** C9: whatever flags [e] carries, [Clone(e)] has the three
    delivery-intent flags false and no reply function, and every envelope
    that [ReplyDM], [ReplyToRoom] and [ReplyTable] hand to the broker is
    such a clone: it carries no forcing state. *)
Theorem Clone_drops_forcing e w msg hdr rows :
  (exists c,
      run (Clone e) w = Ok c
      /\ ToFunc c = false /\ ToRoom c = false /\ ToUser c = false
      /\ ReplyFunc c = None)
  /\ sends_unforced (acts (ReplyDM e msg) w) = true
  /\ sends_unforced (acts (ReplyToRoom e msg) w) = true
  /\ sends_unforced (acts (ReplyTable e hdr rows) w) = true
  /\ match Broker e with
     | Some b =>
         exists o1 o2 o3,
           acts (ReplyDM e msg) w = [ASendDM b o1]
           /\ acts (ReplyToRoom e msg) w = [ASend b o2]
           /\ acts (ReplyTable e hdr rows) w = [ASendTable b o3 hdr rows]
           /\ no_forcing o1 = true /\ no_forcing o2 = true /\ no_forcing o3 = true
     | None => True
     end.
Proof.
  split.
  { exists (Clone_at e (clock w (tick w))). repeat split. }
  destruct (Broker e) as [b|] eqn:Hb.
  - rewrite (acts_logged_ticked _ _ _ _ _ (ReplyDM_attached e msg w b Hb)).
    rewrite (acts_logged_ticked _ _ _ _ _ (ReplyToRoom_attached e msg w b Hb)).
    rewrite (acts_logged_ticked _ _ _ _ _ (ReplyTable_attached e hdr rows w b Hb)).
    repeat split.
    exists (outgoing e msg w), (outgoing e msg w), (Clone_at e (clock w (tick w))).
    repeat split.
  - rewrite (acts_ticked _ _ _ _ (ReplyDM_detached e msg w Hb)).
    rewrite (acts_ticked _ _ _ _ (ReplyToRoom_detached e msg w Hb)).
    rewrite (acts_ticked _ _ _ _ (ReplyTable_detached e hdr rows w Hb)).
    repeat split.
Qed.

Lemma AsPref_steps e w b :
  Broker e = Some b ->
  AsPref e w
  = (Ok {| Pref.User := UserId e;
           Pref.Room := RoomId e;
           Pref.Broker := Name b;
           Pref.Plugin := match instance e with
                          | Some i => Plugin.Name (Instance.Plugin i)
                          | None => ""
                          end;
           Pref.Key := "";
           Pref.Value := "";
           Pref.Success := false |}, w).
Proof.
  intros Hb. unfold AsPref, BrokerName, bind. rewrite Hb.
  destruct (instance e); reflexivity.
Qed.

(** C8: on an envelope with a broker attached, [AsPref] returns (it does
    not panic, with or without instance metadata) the preference whose
    user is the user id of the envelope, whose room is its room id, whose
    broker is the name of the attached broker, and whose plugin is the
    name of the attached plugin, or the empty string when no instance
    metadata is attached; it touches nothing outside. *)
Theorem AsPref_with_broker e w b :
  Broker e = Some b ->
  exists p,
    run (AsPref e) w = Ok p
    /\ world_after (AsPref e) w = w
    /\ Pref.User p = UserId e
    /\ Pref.Room p = RoomId e
    /\ Pref.Broker p = Name b
    /\ Pref.Plugin p = match instance e with
                       | Some i => Plugin.Name (Instance.Plugin i)
                       | None => ""
                       end.
Proof.
  intros Hb. pose proof (AsPref_steps e w b Hb) as H.
  eexists. unfold run, world_after. rewrite H. simpl. repeat split.
Qed.

(** *** [Reply] *)

(** Evaluates the actions of a computation that ran on a symbolic world. *)
Ltac acts_by_trace :=
  apply acts_of_trace; cbn; rewrite <- ?app_assoc;
  first [reflexivity | symmetry; apply app_nil_r].

(** Splits an envelope into its fields and the goal into the cases of
    its flags, its reply function and its broker. *)
Ltac by_flags e :=
  destruct e as [? ? ? ? ? ? ? ? ? [?|] ? ? [|] [|] [|] [?|] ? ?];
  cbn in *; try discriminate; try congruence.

Lemma Reply_unforced e msg w b :
  ToFunc e = false -> ToRoom e = false -> ToUser e = false ->
  Broker e = Some b ->
  exists p,
    AsPref e w = (Ok p, w)
    /\ Reply e msg w
       = (Ok tt,
          logged (ticked (logged w (AFindKey p "reply-via-dm")))
                 (if Pref.Success (One (FindKey p "reply-via-dm"))
                     && (Pref.Value (One (FindKey p "reply-via-dm")) =? "true")
                  then ASendDM b (outgoing e msg w)
                  else ASend b (outgoing e msg w))).
Proof.
  intros Hf Hr Hu Hb.
  destruct e as [? ? ? ? ? ? ? ? ? ? ? ? ? ? ? ? ? [i|]];
    cbn in Hf, Hr, Hu, Hb; subst;
    (eexists; split; [reflexivity|]);
    unfold Reply, bind; cbn;
    (match goal with
     | |- context [Pref.Success ?r] => destruct (Pref.Success r); cbn
     end; [|reflexivity]);
    match goal with
    | |- context [(?v =? "true")] => destruct (v =? "true")
    end; reflexivity.
Qed.

(** C4: on an envelope with no force flag set (and a broker attached, as
    every delivery needs), [Reply] asks the preference store for the key
    reply-via-dm under the preference [AsPref] builds, scoped to the
    envelope's user id, room id, broker name and plugin; it then sends
    exactly once: through [SendDM] if the lookup succeeded with the value
    true, through [Send] in every other case. *)
Theorem Reply_by_preference e msg w b :
  ToFunc e = false -> ToRoom e = false -> ToUser e = false ->
  Broker e = Some b ->
  exists p c,
    run (AsPref e) w = Ok p
    /\ Pref.User p = UserId e /\ Pref.Room p = RoomId e
    /\ Pref.Broker p = Name b
    /\ Pref.Plugin p = match instance e with
                       | Some i => Plugin.Name (Instance.Plugin i)
                       | None => ""
                       end
    /\ run (Clone e) w = Ok c
    /\ run (Reply e msg) w = Ok tt
    /\ acts (Reply e msg) w
       = [AFindKey p "reply-via-dm";
          if Pref.Success (One (FindKey p "reply-via-dm"))
             && (Pref.Value (One (FindKey p "reply-via-dm")) =? "true")
          then ASendDM b (set_Body c msg)
          else ASend b (set_Body c msg)].
Proof.
  intros Hf Hr Hu Hb.
  destruct (Reply_unforced e msg w b Hf Hr Hu Hb) as (p & Hp & HR).
  exists p, (Clone_at e (clock w (tick w))).
  rewrite (AsPref_steps e w b Hb) in Hp. injection Hp as <-.
  split; [exact (run_of _ _ _ _ _ (AsPref_steps e w b Hb))|].
  repeat (split; [reflexivity|]).
  split; [exact (run_of _ _ _ _ _ HR)|].
  apply acts_of_trace. rewrite HR. cbn. rewrite <- app_assoc. reflexivity.
Qed.

(** C3: with force-to-function set, [Reply] first calls the stored
    function with the message, whatever the other two flags, the broker
    and the store are.  With force-to-room alone [Reply] is one run of
    the room path, [ReplyToRoom]: with a broker attached, exactly one
    [Send].  With force-to-room and force-to-user it is the room path
    followed by the direct-message path: with a broker attached, the
    message goes out twice, through [Send] and then through [SendDM]
    (and after the call of the function when all three flags are set).
    As soon as one flag is set the preference store is not consulted. *)
Theorem Reply_forced e msg w :
  (forall f, ToFunc e = true -> ReplyFunc e = Some f ->
             exists rest, acts (Reply e msg) w = AReplyFunc f msg :: rest)
  /\ (ToFunc e = false -> ToRoom e = true -> ToUser e = false ->
      Reply e msg w = ReplyToRoom e msg w
      /\ forall b, Broker e = Some b ->
                   run (Reply e msg) w = Ok tt
                   /\ acts (Reply e msg) w = [ASend b (outgoing e msg w)])
  /\ (ToFunc e = false -> ToRoom e = true -> ToUser e = true ->
      Reply e msg w = bind (ReplyToRoom e msg) (fun _ => ReplyDM e msg) w
      /\ forall b, Broker e = Some b ->
                   run (Reply e msg) w = Ok tt
                   /\ acts (Reply e msg) w
                      = [ASend b (outgoing e msg w);
                         ASendDM b (outgoing e msg (ticked w))])
  /\ (forall b f, ToFunc e = true -> ToRoom e = true -> ToUser e = true ->
                  Broker e = Some b -> ReplyFunc e = Some f ->
                  run (Reply e msg) w = Ok tt
                  /\ acts (Reply e msg) w
                     = [AReplyFunc f msg;
                        ASend b (outgoing e msg w);
                        ASendDM b (outgoing e msg (ticked w))])
  /\ (ToFunc e || ToRoom e || ToUser e = true ->
      existsb consults_store (acts (Reply e msg) w) = false).
Proof.
  split; [|split; [|split; [|split]]].
  - intros f Hf Hs. by_flags e; injection Hs as ->;
      eexists; acts_by_trace.
  - intros Hf Hr Hu. split.
    + by_flags e; reflexivity.
    + intros b Hb. by_flags e; injection Hb as ->;
        (split; [reflexivity|acts_by_trace]).
  - intros Hf Hr Hu. split.
    + by_flags e; reflexivity.
    + intros b Hb. by_flags e; injection Hb as ->;
        (split; [reflexivity|acts_by_trace]).
  - intros b f Hf Hr Hu Hb Hs. by_flags e; injection Hb as ->; injection Hs as ->;
      (split; [reflexivity|acts_by_trace]).
  - intros H.
    assert (exists l, acts (Reply e msg) w = l /\ existsb consults_store l = false)
      as (l & -> & Hl); [|exact Hl].
    by_flags e; eexists; (split; [acts_by_trace|reflexivity]).
Qed.

(** *** When [Reply] returns, and what it has delivered then *)

Lemma Reply_room_only e msg w b :
  ToFunc e = false -> ToRoom e = true -> ToUser e = false ->
  Broker e = Some b ->
  Reply e msg w = (Ok tt, logged (ticked w) (ASend b (outgoing e msg w))).
Proof.
  intros Hf Hr Hu Hb. by_flags e; injection Hb as ->; reflexivity.
Qed.

Lemma Reply_user_only e msg w b :
  ToFunc e = false -> ToRoom e = false -> ToUser e = true ->
  Broker e = Some b ->
  Reply e msg w = (Ok tt, logged (ticked w) (ASendDM b (outgoing e msg w))).
Proof.
  intros Hf Hr Hu Hb. by_flags e; injection Hb as ->; reflexivity.
Qed.

Lemma Reply_unforced_detached e msg w :
  ToFunc e = false -> ToRoom e = false -> ToUser e = false ->
  Broker e = None ->
  Reply e msg w = (Panic nil_dereference, w).
Proof.
  intros Hf Hr Hu Hb.
  destruct e as [? ? ? ? ? ? ? ? ? ? ? ? ? ? ? ? ? [i|]];
    cbn in Hf, Hr, Hu, Hb; subst; reflexivity.
Qed.


(** X12: a [Reply] that returns has delivered the message, and nothing
    but the message, once for each force flag that is set, and exactly
    once when none is: it has never delivered nothing. *)
Theorem Reply_deliveries e msg w :
  run (Reply e msg) w = Ok tt ->
  deliveries (acts (Reply e msg) w)
  = repeat msg (if ToFunc e || ToRoom e || ToUser e
                then Nat.b2n (ToFunc e) + Nat.b2n (ToRoom e) + Nat.b2n (ToUser e)
                else 1).
Proof.
  intros Hrun.
  destruct (ToFunc e || ToRoom e || ToUser e) eqn:Hany.
  - assert (exists l, acts (Reply e msg) w = l
                      /\ deliveries l
                         = repeat msg (Nat.b2n (ToFunc e) + Nat.b2n (ToRoom e)
                                       + Nat.b2n (ToUser e)))
      as (l & -> & Hl); [|exact Hl].
    unfold run in Hrun.
    by_flags e; eexists; (split; [acts_by_trace|reflexivity]).
  - apply orb_false_elim in Hany as [Hany Hu].
    apply orb_false_elim in Hany as [Hf Hr].
    destruct (Broker e) as [b|] eqn:Hb.
    + destruct (Reply_unforced e msg w b Hf Hr Hu Hb) as (p & _ & HR).
      assert (acts (Reply e msg) w
              = [AFindKey p "reply-via-dm";
                 if Pref.Success (One (FindKey p "reply-via-dm"))
                    && (Pref.Value (One (FindKey p "reply-via-dm")) =? "true")
                 then ASendDM b (outgoing e msg w)
                 else ASend b (outgoing e msg w)]) as ->.
      { apply acts_of_trace. rewrite HR. cbn. rewrite <- app_assoc. reflexivity. }
      destruct (Pref.Success (One (FindKey p "reply-via-dm"))
                && (Pref.Value (One (FindKey p "reply-via-dm")) =? "true"));
        reflexivity.
    + rewrite (run_of _ _ _ _ _ (Reply_unforced_detached e msg w Hf Hr Hu Hb)) in Hrun.
      discriminate Hrun.
Qed.

(** *** Replies on clones *)

(** X7: a reply on a forced clone goes one way only, whatever the flags
    and the reply function of the envelope it was cloned from, and
    without a look at the preference store: through [Send] after
    [ForceToRoom], through [SendDM] after [ForceToUser]; and since each
    of the two clones afresh, of [ForceToRoom] followed by [ForceToUser]
    only the second is left. *)
Theorem Force_then_Reply e msg w b :
  Broker e = Some b ->
  let to_room := bind (ForceToRoom e) (fun c => Reply c msg) in
  let to_user := bind (ForceToUser e) (fun c => Reply c msg) in
  let chained := bind (ForceToRoom e)
                      (fun c => bind (ForceToUser c) (fun c' => Reply c' msg)) in
  (run to_room w = Ok tt
   /\ acts to_room w = [ASend b (outgoing e msg (ticked w))])
  /\ (run to_user w = Ok tt
      /\ acts to_user w = [ASendDM b (outgoing e msg (ticked w))])
  /\ (run chained w = Ok tt
      /\ acts chained w = [ASendDM b (outgoing e msg (ticked (ticked w)))]).
Proof.
  intros Hb to_room to_user chained.
  assert (to_room w
          = (Ok tt, logged (ticked (ticked w)) (ASend b (outgoing e msg (ticked w)))))
    as H1.
  { unfold to_room, ForceToRoom, bind. rewrite Clone_steps. cbn [ret].
    rewrite (Reply_room_only (set_ToRoom (Clone_at e (clock w (tick w))) true)
                             msg (ticked w) b eq_refl eq_refl eq_refl Hb).
    reflexivity. }
  assert (to_user w
          = (Ok tt, logged (ticked (ticked w)) (ASendDM b (outgoing e msg (ticked w)))))
    as H2.
  { unfold to_user, ForceToUser, bind. rewrite Clone_steps. cbn [ret].
    rewrite (Reply_user_only (set_ToUser (Clone_at e (clock w (tick w))) true)
                             msg (ticked w) b eq_refl eq_refl eq_refl Hb).
    reflexivity. }
  assert (chained w
          = (Ok tt, logged (ticked (ticked (ticked w)))
                           (ASendDM b (outgoing e msg (ticked (ticked w))))))
    as H3.
  { unfold chained, ForceToRoom, ForceToUser, bind. rewrite Clone_steps. cbn [ret].
    rewrite Clone_steps. cbn [ret].
    rewrite (Reply_user_only
               (set_ToUser
                  (Clone_at (set_ToRoom (Clone_at e (clock w (tick w))) true)
                            (clock (ticked w) (tick (ticked w)))) true)
               msg (ticked (ticked w)) b eq_refl eq_refl eq_refl Hb).
    reflexivity. }
  repeat split;
    first [exact (run_of _ _ _ _ _ H1) | exact (run_of _ _ _ _ _ H2)
          | exact (run_of _ _ _ _ _ H3)
          | apply acts_of_trace; rewrite H1; reflexivity
          | apply acts_of_trace; rewrite H2; reflexivity
          | apply acts_of_trace; rewrite H3; reflexivity].
Qed.

(** X13: a reply on a plain clone is routed by preference, whatever the
    flags of the envelope it was cloned from, and the preference is
    looked up under the empty plugin name, whatever instance metadata
    that envelope has: [Clone] carries neither over. *)
Theorem Reply_on_clone e msg w b :
  Broker e = Some b ->
  let cloned := bind (Clone e) (fun c => Reply c msg) in
  let p := {| Pref.User := UserId e;
              Pref.Room := RoomId e;
              Pref.Broker := Name b;
              Pref.Plugin := "";
              Pref.Key := "";
              Pref.Value := "";
              Pref.Success := false |} in
  run cloned w = Ok tt
  /\ acts cloned w
     = [AFindKey p "reply-via-dm";
        if Pref.Success (One (FindKey p "reply-via-dm"))
           && (Pref.Value (One (FindKey p "reply-via-dm")) =? "true")
        then ASendDM b (outgoing e msg (ticked w))
        else ASend b (outgoing e msg (ticked w))].
Proof.
  intros Hb cloned p.
  destruct (Reply_unforced (Clone_at e (clock w (tick w))) msg (ticked w) b
                           eq_refl eq_refl eq_refl Hb) as (q & Hq & HR).
  rewrite (AsPref_steps (Clone_at e (clock w (tick w))) (ticked w) b Hb) in Hq.
  injection Hq as <-.
  assert (cloned w = Reply (Clone_at e (clock w (tick w))) msg (ticked w)) as HC.
  { unfold cloned, bind. rewrite Clone_steps. reflexivity. }
  rewrite HR in HC.
  split; [exact (run_of _ _ _ _ _ HC)|].
  apply acts_of_trace. rewrite HC. cbn. rewrite <- app_assoc. reflexivity.
Qed.

(** *** The accessors of the preference store *)

Lemma InstanceSettings_loop_steps e broker plugin stgs :
  forall out w,
    InstanceSettings_loop e broker plugin stgs out w
    = (Ok (out ++ map (setting_row "" broker (RoomId e) plugin)
                      (filter (setting_applies e) stgs))%list,
       mkWorld (clock w) (tick w)
               (trace w ++ map (setting_query "" broker (RoomId e) plugin)
                               (filter (setting_applies e) stgs))).
Proof.
  induction stgs as [|stg rest IH]; intros out w.
  - cbn. rewrite !app_nil_r. destruct w; reflexivity.
  - cbn [InstanceSettings_loop filter].
    assert (negb (Setting.Room stg =? "") && negb (Setting.Room stg =? RoomId e)
            = negb (setting_applies e stg)) as ->.
    { unfold setting_applies.
      destruct (Setting.Room stg =? ""), (Setting.Room stg =? RoomId e); reflexivity. }
    destruct (setting_applies e stg); cbn [negb].
    + unfold bind, emit. rewrite IH. cbn [map trace clock tick].
      unfold setting_row at 2, setting_query at 2.
      rewrite <- !app_assoc. reflexivity.
    + apply IH.
Qed.

Lemma Evt_FindPrefs_steps e w b i :
  Broker e = Some b -> instance e = Some i ->
  Evt_FindPrefs e w
  = (Ok (FindPrefs (User e) (Name b) (RoomId e) (Plugin.Name (Instance.Plugin i)) ""),
     logged w (AFindPrefs (User e) (Name b) (RoomId e)
                          (Plugin.Name (Instance.Plugin i)) "")).
Proof.
  intros Hb Hi. unfold Evt_FindPrefs, BrokerName, instance_Plugin, bind.
  rewrite Hb, Hi. reflexivity.
Qed.

Lemma InstanceSettings_steps e w b i :
  Broker e = Some b -> instance e = Some i ->
  InstanceSettings e w
  = (Ok (map (setting_row "" (Name b) (RoomId e) (Plugin.Name (Instance.Plugin i)))
             (filter (setting_applies e) (Plugin.Settings (Instance.Plugin i)))),
     mkWorld (clock w) (tick w)
             (trace w ++ map (setting_query "" (Name b) (RoomId e)
                                            (Plugin.Name (Instance.Plugin i)))
                             (filter (setting_applies e)
                                     (Plugin.Settings (Instance.Plugin i))))).
Proof.
  intros Hb Hi. unfold InstanceSettings, BrokerName, instance_Plugin, bind.
  rewrite Hb, Hi. cbn. apply InstanceSettings_loop_steps.
Qed.

Lemma accessors_panic e w :
  Broker e = None \/ instance e = None ->
  (exists m, Evt_FindPrefs e w = (Panic m, w))
  /\ (exists m, InstanceSettings e w = (Panic m, w)).
Proof.
  intros H. unfold Evt_FindPrefs, InstanceSettings, BrokerName, instance_Plugin, bind.
  destruct (Broker e) as [b|], (instance e) as [i|]; cbn;
    try (split; eexists; reflexivity).
  destruct H; discriminate.
Qed.

(** C10, as amended: without instance metadata, and likewise without a
    broker, [FindPrefs] and [InstanceSettings] panic on a nil dereference
    before they reach the store.  With both attached, [FindPrefs]
    returns the rows of the store for the user, broker name, room id and
    plugin name of the envelope under the empty key, a call scoped to the
    envelope as the claim says, and [InstanceSettings] resolves, in the order they are declared, the
    settings that are not scoped to another room, each under the empty
    user with the broker name, the room id, the plugin name, the key and
    the default of the setting. *)
Theorem store_accessors e w :
  (Broker e = None \/ instance e = None ->
   (exists m, run (Evt_FindPrefs e) w = Panic m)
   /\ (exists m, run (InstanceSettings e) w = Panic m)
   /\ acts (Evt_FindPrefs e) w = []
   /\ acts (InstanceSettings e) w = [])
  /\ (forall b i,
         Broker e = Some b -> instance e = Some i ->
         let plugin := Plugin.Name (Instance.Plugin i) in
         let declared := Plugin.Settings (Instance.Plugin i) in
         run (Evt_FindPrefs e) w
         = Ok (FindPrefs (User e) (Name b) (RoomId e) plugin "")
         /\ acts (Evt_FindPrefs e) w
            = [AFindPrefs (User e) (Name b) (RoomId e) plugin ""]
         /\ user_scoped e b i (acts (Evt_FindPrefs e) w)
         /\ run (InstanceSettings e) w
            = Ok (map (setting_row "" (Name b) (RoomId e) plugin)
                      (filter (setting_applies e) declared))
         /\ acts (InstanceSettings e) w
            = map (setting_query "" (Name b) (RoomId e) plugin)
                  (filter (setting_applies e) declared)).
Proof.
  split.
  - intros H. destruct (accessors_panic e w H) as [[m1 H1] [m2 H2]].
    split; [exists m1; exact (run_of _ _ _ _ _ H1)|].
    split; [exists m2; exact (run_of _ _ _ _ _ H2)|].
    split; [exact (acts_unchanged _ _ _ _ H1)|exact (acts_unchanged _ _ _ _ H2)].
  - intros b i Hb Hi plugin declared.
    pose proof (Evt_FindPrefs_steps e w b i Hb Hi) as HF.
    pose proof (InstanceSettings_steps e w b i Hb Hi) as HS.
    assert (acts (Evt_FindPrefs e) w
            = [AFindPrefs (User e) (Name b) (RoomId e) plugin ""]) as HA.
    { apply acts_of_trace. rewrite HF. reflexivity. }
    split; [exact (run_of _ _ _ _ _ HF)|].
    split; [exact HA|].
    split.
    { rewrite HA. constructor; [|constructor]. cbn.
      rewrite !String.eqb_refl. reflexivity. }
    split; [exact (run_of _ _ _ _ _ HS)|].
    apply acts_of_trace. rewrite HS. reflexivity.
Qed.

(** *** The other methods *)

(** X5: [BodyAsArgv] returns no token exactly when the trimmed body is
    empty. *)
Theorem BodyAsArgv_nil_iff e :
  BodyAsArgv e = [] <-> GoStrings.TrimSpace (Body e) = "".
Proof.
  unfold BodyAsArgv. split.
  - destruct (GoStrings.TrimSpace (Body e)) as [|c s'] eqn:Ht; [reflexivity|].
    intros H. exfalso.
    assert (Regexp.perl_space c = false) as Hc.
    { destruct (Regexp.perl_space c) eqn:Hp; [|reflexivity].
      apply perl_space_ascii_space in Hp.
      rewrite (TrimSpace_head (Body e) c s' Ht) in Hp. discriminate. }
    destruct (FindAllString_starts c s' Hc) as (m & ms & Hm).
    rewrite Hm in H. discriminate.
  - intros ->. reflexivity.
Qed.

(** X4: [BodyAsArgv] never fails, and its tokens are those of the matches
    of the expression in the trimmed body, one for one and in order: the
    inside of a quoted run, a run of non-space bytes as it is, and the
    empty string for a quote character that stands alone.  The matches
    and the token of each are determined: no other list of tokens fits
    what the relations say of the trimmed body. *)
Theorem BodyAsArgv_tokens e :
  (exists ms,
      Regexp.Tokens (GoStrings.TrimSpace (Body e)) ms
      /\ Forall2 Regexp.token_of ms (BodyAsArgv e))
  /\ (forall ms ts,
         Regexp.Tokens (GoStrings.TrimSpace (Body e)) ms ->
         Forall2 Regexp.token_of ms ts ->
         ts = BodyAsArgv e).
Proof.
  assert (Forall2 Regexp.token_of
                  (Regexp.FindAllString (GoStrings.TrimSpace (Body e)))
                  (BodyAsArgv e)) as Hcode.
  { unfold BodyAsArgv.
    pose proof (Tokens_token_of
                  _ _ (FindAllString_Tokens (GoStrings.TrimSpace (Body e)))) as H.
    induction H as [|m ms Hm _ IH]; cbn [map]; constructor; assumption. }
  split.
  - exists (Regexp.FindAllString (GoStrings.TrimSpace (Body e))).
    split; [apply FindAllString_Tokens|exact Hcode].
  - intros ms ts Hms Hts.
    apply Tokens_scan in Hms. unfold Regexp.FindAllString in Hcode.
    rewrite Hms in Hcode.
    exact (tokens_of_functional ms ts (BodyAsArgv e) Hts Hcode).
Qed.

(** X6: a command line of well-formed arguments, written with one blank
    between two, is split back into its arguments: bare words as they
    are, quoted strings without their quotes, blanks inside quotes kept. *)
Theorem BodyAsArgv_round_trip e args :
  Forall Argv.well_formed args ->
  BodyAsArgv (set_Body e (Argv.join args)) = map Argv.value args.
Proof.
  intros Hwf. unfold BodyAsArgv. cbn [Body set_Body].
  assert (GoStrings.TrimSpace (Argv.join args) = Argv.join args) as ->.
  { destruct args as [|a rest]; [reflexivity|].
    destruct (join_shape (a :: rest) Hwf ltac:(discriminate))
      as (x & s & Hj & Hx & He).
    rewrite Hj in *. apply TrimSpace_fixed; assumption. }
  unfold Regexp.FindAllString. rewrite (Tokens_scan _ _ (join_Tokens args Hwf)).
  rewrite map_map. apply map_ext_in. intros a Ha.
  apply unquote_render. rewrite Forall_forall in Hwf. apply Hwf. exact Ha.
Qed.

(** [ForceToRoom] and [ForceToUser] return a clone of the envelope with
    the one flag set and the other two clear. *)
Theorem Force_sets_one_flag e w :
  (exists c,
      run (ForceToRoom e) w = Ok c
      /\ c = set_ToRoom (Clone_at e (clock w (tick w))) true
      /\ ToRoom c = true /\ ToUser c = false /\ ToFunc c = false)
  /\ (exists c,
         run (ForceToUser e) w = Ok c
         /\ c = set_ToUser (Clone_at e (clock w (tick w))) true
         /\ ToUser c = true /\ ToRoom c = false /\ ToFunc c = false).
Proof.
  split; eexists; repeat split.
Qed.

(** X8: [ReplyTable] does not look at the force flags nor at the store: with
    a broker attached it hands a clone of the envelope, the header and
    the rows to [SendTable]; without one it panics. *)
Theorem ReplyTable_direct e hdr rows w :
  match Broker e with
  | Some b =>
      run (ReplyTable e hdr rows) w = Ok tt
      /\ acts (ReplyTable e hdr rows) w
         = [ASendTable b (Clone_at e (clock w (tick w))) hdr rows]
  | None =>
      run (ReplyTable e hdr rows) w
      = Panic "hal.Evt.ReplyTable called with nil Broker!"
      /\ acts (ReplyTable e hdr rows) w = []
  end.
Proof.
  destruct (Broker e) as [b|] eqn:Hb.
  - pose proof (ReplyTable_attached e hdr rows w b Hb) as H.
    split; [exact (run_of _ _ _ _ _ H)|exact (acts_logged_ticked _ _ _ _ _ H)].
  - pose proof (ReplyTable_detached e hdr rows w Hb) as H.
    split; [exact (run_of _ _ _ _ _ H)|exact (acts_ticked _ _ _ _ H)].
Qed.

(** X9: the timestamp of a clone is the reading of the clock: it is not
    before the timestamp of the envelope when that one is not in the
    future of the clock. *)
Theorem Clone_time e w :
  (Time e <= clock w (tick w))%Z ->
  exists c, run (Clone e) w = Ok c
            /\ Time c = clock w (tick w)
            /\ (Time c >= Time e)%Z.
Proof.
  intros H. exists (Clone_at e (clock w (tick w))).
  split; [reflexivity|]. split; [reflexivity|]. cbn [Time Clone_at]. lia.
Qed.

End EnvelopeFacts.

(** ** The console broker *)

Section ConsoleFacts.
Import GoStrings Regexp hal console.

Context {Func : Type} {store : PrefStore}.

Implicit Types (cb : Broker) (input : string) (w : World Broker Func Payload).

Lemma HasPrefix_slash input :
  HasPrefix input "/" = true -> exists s, input = String "/" s.
Proof.
  unfold HasPrefix. destruct input as [|c s]; cbn [String.prefix]; [discriminate|].
  destruct (ascii_dec "/"%char c) as [<-|]; [|discriminate]. intros _. exists s. reflexivity.
Qed.

Lemma FindAllString_slash s :
  exists m ms, FindAllString (String "/" s) = String "/" m :: ms.
Proof.
  unfold FindAllString. cbn [scan]. unfold match_here.
  change (quoted_here squote (String "/" s)) with (@None nat).
  change (quoted_here dquote (String "/" s)) with (@None nat).
  change (nonspace_run (String "/" s)) with (S (nonspace_run s)).
  cbn [take]. eexists. eexists. reflexivity.
Qed.

(** A line that starts with the command marker has a first token. *)
Lemma BodyAsArgv_slash cb input t :
  HasPrefix input "/" = true ->
  exists a0 rest, BodyAsArgv (Stream_Evt (Func := Func) cb input t) = a0 :: rest.
Proof.
  intros H. destruct (HasPrefix_slash input H) as [s ->].
  unfold BodyAsArgv. cbn [Body Stream_Evt].
  destruct (TrimSpace_plain "/"%char eq_refl s) as [s' ->].
  destruct (FindAllString_slash s') as (m & ms & ->).
  cbn [map]. eexists. eexists. reflexivity.
Qed.

(** One turn of [Stream] on a line that starts with the command marker,
    by its tokens. *)
Lemma Stream_body_slash cb input w a0 rest :
  HasPrefix input "/" = true ->
  BodyAsArgv (Stream_Evt (Func := Func) cb input (clock w (tick w))) = a0 :: rest ->
  let e := Stream_Evt cb input (clock w (tick w)) in
  Stream_body cb input w
  = if a0 =? "/reaction"
    then match rest with
         | [a1] => (Ok (mkTurn (set_Original (set_Body e a1)
                                             (Some (PtrSlashReaction a1))) None),
                    ticked w)
         | _ => bind (Reply e usage) (fun _ => ret (mkTurn e None)) (ticked w)
         end
    else (Ok (mkTurn e None), ticked w).
Proof.
  intros H Hargs e. unfold Stream_body, bind at 1. cbn [now].
  fold e. change (Body e) with input. rewrite H.
  fold e in Hargs. rewrite Hargs. unfold bind at 1. cbn [index nth_error ret].
  destruct (a0 =? "/reaction"); [|reflexivity].
  destruct rest as [|a1 [|a2 rest]]; reflexivity.
Qed.

Lemma Stream_single cb input w t w' :
  Stream_body cb input w = (Ok t, w') ->
  Stream cb [input] w = (Ok match sent t with
                            | Some e => [e]
                            | None => []
                            end, w').
Proof.
  intros H. cbn [Stream]. unfold bind at 1. rewrite H. reflexivity.
Qed.

(** C6: on a line that starts with the command marker, whose first token
    [a0] always exists: when [a0] is the reaction command and the number
    of its arguments is not one, the turn forwards no event and replies
    once, to the console broker itself, with the usage error (through
    [SendDM] if the store says reply-via-dm is true, through [Send]
    otherwise); when [a0] is any other token, the turn forwards no event
    and does nothing at all. *)
Theorem Stream_slash_errors cb input w :
  HasPrefix input "/" = true ->
  let e := Stream_Evt (Func := Func) cb input (clock w (tick w)) in
  exists a0 rest,
    BodyAsArgv e = a0 :: rest
    /\ (a0 = "/reaction" -> List.length rest <> 1 ->
        exists p,
          run (AsPref e) w = Ok p
          /\ run (Stream_body cb input) w = Ok (mkTurn e None)
          /\ run (Stream cb [input]) w = Ok []
          /\ acts (Stream_body cb input) w
             = [AFindKey p "reply-via-dm";
                if Pref.Success (One (FindKey p "reply-via-dm"))
                   && (Pref.Value (One (FindKey p "reply-via-dm")) =? "true")
                then ASendDM cb (outgoing e usage (ticked w))
                else ASend cb (outgoing e usage (ticked w))]
          /\ Body (outgoing e usage (ticked w)) = usage)
    /\ (a0 <> "/reaction" ->
        run (Stream_body cb input) w = Ok (mkTurn e None)
        /\ run (Stream cb [input]) w = Ok []
        /\ acts (Stream_body cb input) w = []).
Proof.
  intros H e.
  destruct (BodyAsArgv_slash cb input (clock w (tick w)) H) as (a0 & rest & Hargs).
  exists a0, rest. split; [exact Hargs|].
  pose proof (Stream_body_slash cb input w a0 rest H Hargs) as HS. cbv zeta in HS.
  fold e in HS. split.
  - intros -> Hlen. rewrite String.eqb_refl in HS.
    destruct (Reply_unforced e usage (ticked w) cb eq_refl eq_refl eq_refl eq_refl)
      as (p & Hp & HR).
    assert (Stream_body cb input w
            = (Ok (mkTurn e None),
               logged (ticked (logged (ticked w) (AFindKey p "reply-via-dm")))
                      (if Pref.Success (One (FindKey p "reply-via-dm"))
                          && (Pref.Value (One (FindKey p "reply-via-dm")) =? "true")
                       then ASendDM cb (outgoing e usage (ticked w))
                       else ASend cb (outgoing e usage (ticked w))))) as HB.
    { rewrite HS. destruct rest as [|a1 [|a2 rest]];
        [|exfalso; apply Hlen; reflexivity|];
        unfold bind; rewrite HR; reflexivity. }
    exists p. split.
    { rewrite (AsPref_steps e (ticked w) cb eq_refl) in Hp. injection Hp as <-.
      exact (run_of _ _ _ _ _ (AsPref_steps e w cb eq_refl)). }
    split; [exact (run_of _ _ _ _ _ HB)|].
    split; [exact (run_of _ _ _ _ _ (Stream_single _ _ _ _ _ HB))|].
    split; [|reflexivity].
    apply acts_of_trace. rewrite HB. cbn. rewrite <- app_assoc. reflexivity.
  - intros Hne. apply String.eqb_neq in Hne. rewrite Hne in HS.
    split; [exact (run_of _ _ _ _ _ HS)|].
    split; [exact (run_of _ _ _ _ _ (Stream_single _ _ _ _ _ HS))|].
    exact (acts_ticked _ _ _ _ HS).
Qed.

(** *** What [Stream] forwards *)

(** A turn of [Stream] never panics; it sends its event on [out] exactly
    when the line does not start with the command marker. *)
Lemma Stream_body_total cb input w :
  exists t w',
    Stream_body cb input w = (Ok t, w')
    /\ sent t = if HasPrefix input "/"
                then None
                else Some (Stream_Evt cb input (clock w (tick w))).
Proof.
  destruct (HasPrefix input "/") eqn:H.
  - destruct (BodyAsArgv_slash cb input (clock w (tick w)) H) as (a0 & rest & Hargs).
    rewrite (Stream_body_slash cb input w a0 rest H Hargs).
    set (e := Stream_Evt cb input (clock w (tick w))).
    destruct (Reply_unforced e usage (ticked w) cb eq_refl eq_refl eq_refl eq_refl)
      as (p & _ & HR).
    destruct (a0 =? "/reaction"); [|eexists; eexists; split; reflexivity].
    destruct rest as [|a1 [|a2 rest]];
      try (unfold bind; rewrite HR); eexists; eexists; split; reflexivity.
  - unfold Stream_body, bind. cbn [now]. cbn [Body Stream_Evt]. rewrite H.
    eexists. eexists. split; reflexivity.
Qed.

(** X1: a line that starts with the command marker is never forwarded,
    whatever its tokens are, the reaction command with one argument
    included. *)
Theorem Stream_slash_never_forwards cb input w :
  HasPrefix input "/" = true ->
  exists t,
    run (Stream_body cb input) w = Ok t
    /\ sent t = None
    /\ run (Stream cb [input]) w = Ok [].
Proof.
  intros H. destruct (Stream_body_total cb input w) as (t & w' & HB & Hsent).
  rewrite H in Hsent. exists t.
  split; [exact (run_of _ _ _ _ _ HB)|]. split; [exact Hsent|].
  rewrite (run_of _ _ _ _ _ (Stream_single _ _ _ _ _ HB)), Hsent. reflexivity.
Qed.

(** X2: a line that does not start with the command marker is forwarded as
    built: the body is the line, user and room are those of the broker,
    the payload is the line read; nothing else happens. *)
Theorem Stream_plain_forwards cb input w :
  HasPrefix input "/" = false ->
  let e := Stream_Evt (Func := Func) cb input (clock w (tick w)) in
  run (Stream_body cb input) w = Ok (mkTurn e (Some e))
  /\ run (Stream cb [input]) w = Ok [e]
  /\ acts (Stream_body cb input) w = []
  /\ Body e = input
  /\ hal.User e = User cb /\ UserId e = User cb
  /\ hal.Room e = Room cb /\ RoomId e = Room cb
  /\ hal.Broker e = Some cb
  /\ Original e = Some (PtrString input).
Proof.
  intros H e.
  assert (Stream_body cb input w = (Ok (mkTurn e (Some e)), ticked w)) as HB.
  { unfold Stream_body, bind. cbn [now]. cbn [Body Stream_Evt]. rewrite H. reflexivity. }
  split; [exact (run_of _ _ _ _ _ HB)|].
  split; [exact (run_of _ _ _ _ _ (Stream_single _ _ _ _ _ HB))|].
  split; [exact (acts_ticked _ _ _ _ HB)|].
  repeat split.
Qed.

(** X3: [Stream] handles the lines in the order they arrive: it never
    panics, and the bodies of the events it sends on [out] are the lines
    that do not start with the command marker, in their order. *)
Theorem Stream_keeps_order cb inputs :
  forall w,
  exists evts,
    run (Stream cb inputs) w = Ok evts
    /\ map (@Body Broker Func Payload) evts
       = filter (fun line => negb (HasPrefix line "/")) inputs.
Proof.
  induction inputs as [|input rest IH]; intros w.
  - exists []. split; reflexivity.
  - destruct (Stream_body_total cb input w) as (t & w' & HB & Hsent).
    destruct (IH w') as (evts & Hrun & Hbodies).
    unfold run in Hrun. destruct (Stream cb rest w') as [r w''] eqn:HS.
    cbn [fst] in Hrun. subst r.
    assert (Stream cb (input :: rest) w
            = (Ok match sent t with
                  | Some e => e :: evts
                  | None => evts
                  end, w'')) as HC.
    { cbn [Stream]. unfold bind. rewrite HB, HS. reflexivity. }
    rewrite (run_of _ _ _ _ _ HC), Hsent. cbn [filter].
    destruct (HasPrefix input "/"); cbn [negb].
    + exists evts. split; [reflexivity|exact Hbodies].
    + eexists. split; [reflexivity|]. cbn [map Body Stream_Evt].
      rewrite Hbodies. reflexivity.
Qed.

(** *** The events [Stream] forwards, and replies to them *)

(** [Stream] never panics, and each event it forwards is the one built
    for a line that does not start with the command marker. *)
Lemma Stream_forwarded cb inputs :
  forall w,
  exists evts w',
    Stream cb inputs w = (Ok evts, w')
    /\ Forall (fun e => exists input t,
                   In input inputs /\ HasPrefix input "/" = false
                   /\ e = Stream_Evt cb input t) evts
    /\ map (@Body Broker Func Payload) evts
       = filter (fun line => negb (HasPrefix line "/")) inputs.
Proof.
  induction inputs as [|input rest IH]; intros w.
  - exists [], w. repeat split. constructor.
  - destruct (Stream_body_total cb input w) as (t & w1 & HB & Hsent).
    destruct (IH w1) as (evts & w2 & HS & Hall & Hbodies).
    assert (Forall (fun e => exists input0 t0,
                        In input0 (input :: rest) /\ HasPrefix input0 "/" = false
                        /\ e = Stream_Evt cb input0 t0) evts) as Hall'.
    { apply Forall_impl with (2 := Hall).
      intros e (i & t0 & Hin & Hp & He). exists i, t0.
      split; [right; exact Hin|]. split; assumption. }
    cbn [Stream filter]. unfold bind. rewrite HB, HS. cbn [ret]. rewrite Hsent.
    destruct (HasPrefix input "/") eqn:Hp; cbn [negb].
    + exists evts, w2. repeat split; assumption.
    + eexists. exists w2. split; [reflexivity|]. split.
      * constructor; [|exact Hall'].
        exists input, (clock w (tick w)). split; [left; reflexivity|].
        split; [exact Hp|reflexivity].
      * cbn [map Body Stream_Evt]. rewrite Hbodies. reflexivity.
Qed.

(** X15: every event that [Stream] forwards can be answered: it has the
    console broker attached and no force flag set, so that [Reply] on it
    returns, in any world and under any store, and delivers the message
    exactly once. *)
Theorem Stream_events_replyable cb inputs w :
  exists evts,
    run (Stream cb inputs) w = Ok evts
    /\ Forall (fun e =>
                 hal.Broker e = Some cb /\ no_forcing e = true
                 /\ forall msg w1,
                     run (Reply e msg) w1 = Ok tt
                     /\ deliveries (acts (Reply e msg) w1) = [msg]) evts.
Proof.
  destruct (Stream_forwarded cb inputs w) as (evts & w' & HS & Hall & _).
  exists evts. split; [exact (run_of _ _ _ _ _ HS)|].
  apply Forall_impl with (2 := Hall).
  intros e (input & t & _ & _ & ->).
  split; [reflexivity|]. split; [reflexivity|]. intros msg w1.
  destruct (Reply_unforced (Stream_Evt cb input t) msg w1 cb
                           eq_refl eq_refl eq_refl eq_refl) as (p & _ & HR).
  split; [exact (run_of _ _ _ _ _ HR)|].
  assert (acts (Reply (Stream_Evt cb input t) msg) w1
          = [AFindKey p "reply-via-dm";
             if Pref.Success (One (FindKey p "reply-via-dm"))
                && (Pref.Value (One (FindKey p "reply-via-dm")) =? "true")
             then ASendDM cb (outgoing (Stream_Evt cb input t) msg w1)
             else ASend cb (outgoing (Stream_Evt cb input t) msg w1)]) as ->.
  { apply acts_of_trace. rewrite HR. cbn. rewrite <- app_assoc. reflexivity. }
  destruct (Pref.Success (One (FindKey p "reply-via-dm"))
            && (Pref.Value (One (FindKey p "reply-via-dm")) =? "true"));
    reflexivity.
Qed.

(** X16: a broker made by [NewBroker] has a user that is not empty,
    whatever the environment: the value of USER when that is not empty,
    and [testuser] when it is empty or not set; it has the name given as
    its room and as its name; the events [Stream] forwards for it carry that user as user and
    user id and that name as room and room id. *)
Theorem NewBroker_events getenv name inputs w :
  let cb := NewBroker getenv name in
  User cb <> ""
  /\ (getenv "USER" <> "" -> User cb = getenv "USER")
  /\ (getenv "USER" = "" -> User cb = "testuser")
  /\ Name cb = name /\ Room cb = name
  /\ exists evts,
      run (Stream cb inputs) w = Ok evts
      /\ Forall (fun e : hal.Evt Broker Func Payload =>
                   hal.User e = User cb /\ UserId e = User cb
                   /\ hal.Room e = name /\ RoomId e = name
                   /\ run (BrokerName e) w = Ok name) evts.
Proof.
  intros cb. split; [|split; [|split; [|split; [|split]]]].
  - unfold cb, NewBroker. cbn [User].
    destruct (getenv "USER" =? "") eqn:E; [discriminate|].
    apply String.eqb_neq. exact E.
  - intros H. unfold cb, NewBroker. cbn [User].
    apply String.eqb_neq in H. rewrite H. reflexivity.
  - intros H. unfold cb, NewBroker. cbn [User]. rewrite H. reflexivity.
  - reflexivity.
  - reflexivity.
  - destruct (Stream_forwarded cb inputs w) as (evts & w' & HS & Hall & _).
    exists evts. split; [exact (run_of _ _ _ _ _ HS)|].
    apply Forall_impl with (2 := Hall).
    intros e (input & t & _ & _ & ->). repeat split.
Qed.

(** *** The two pumps *)

(** The lines of the scans that are not empty. *)
Lemma SimpleStdin_clean scans :
  Forall (fun sc => Err sc = None) scans ->
  forall Stdin,
    SimpleStdin scans Stdin
    = (Drained,
       (Stdin ++ filter (fun line => negb (line =? "")) (map Text scans))%list).
Proof.
  induction 1 as [|sc scans Hsc _ IH]; intros Stdin.
  - cbn. rewrite app_nil_r. reflexivity.
  - cbn [SimpleStdin map filter]. rewrite Hsc.
    destruct (Text sc) as [|c line] eqn:E.
    + cbn. apply IH.
    + cbn [String.length Nat.eqb String.eqb negb]. rewrite IH, <- app_assoc.
      reflexivity.
Qed.

(** X17: [SimpleStdin] sends on [Stdin] the lines scanned that are not
    empty, in their order, and no empty line; at the first scan that
    reports an error it ends the process, having sent the lines before
    it and none after. *)
Theorem SimpleStdin_pushes good :
  Forall (fun sc => Err sc = None) good ->
  forall Stdin,
    let pushed := filter (fun line => negb (line =? "")) (map Text good) in
    SimpleStdin good Stdin = (Drained, (Stdin ++ pushed)%list)
    /\ Forall (fun line => line <> "") pushed
    /\ forall line err rest,
        SimpleStdin (good ++ mkScanned line (Some err) :: rest) Stdin
        = (Fatal ("Failed while reading from stdin: " ++ err ++ newline),
           (Stdin ++ pushed)%list).
Proof.
  intros Hgood Stdin pushed. split; [|split].
  - apply SimpleStdin_clean. exact Hgood.
  - unfold pushed. apply Forall_forall. intros line Hin.
    apply filter_In in Hin as [_ Hne]. apply String.eqb_neq.
    destruct (line =? ""); [discriminate|reflexivity].
  - intros line err rest. unfold pushed. clear pushed. revert Stdin.
    induction Hgood as [|sc scans Hsc _ IH]; intros Stdin.
    + cbn. rewrite app_nil_r. reflexivity.
    + cbn [app SimpleStdin map filter]. rewrite Hsc.
      destruct (Text sc) as [|c l] eqn:E.
      * cbn. apply IH.
      * cbn [String.length Nat.eqb String.eqb negb]. rewrite IH, <- app_assoc.
        reflexivity.
Qed.

(** X18: what is typed reaches the plugins through the two loops as
    follows: when no scan fails, the bodies of the events forwarded are
    the lines that are not empty and do not start with the command
    marker, in the order typed; no event has an empty body. *)
Theorem SimpleStdin_then_Stream cb scans w :
  Forall (fun sc => Err sc = None) scans ->
  exists lines evts,
    SimpleStdin scans [] = (Drained, lines)
    /\ run (Stream cb lines) w = Ok evts
    /\ map (@Body Broker Func Payload) evts
       = filter (fun line => negb (line =? "") && negb (HasPrefix line "/"))
                (map Text scans)
    /\ Forall (fun e : hal.Evt Broker Func Payload => Body e <> "") evts.
Proof.
  intros Hgood.
  exists (filter (fun line => negb (line =? "")) (map Text scans)).
  destruct (Stream_forwarded
              cb (filter (fun line => negb (line =? "")) (map Text scans)) w)
    as (evts & w' & HS & Hall & Hbodies).
  exists evts. split; [exact (SimpleStdin_clean scans Hgood [])|].
  split; [exact (run_of _ _ _ _ _ HS)|]. split.
  - rewrite Hbodies. clear. induction (map Text scans) as [|l ls IH]; [reflexivity|].
    cbn [filter]. destruct (l =? ""); cbn [negb andb filter]; [exact IH|].
    destruct (HasPrefix l "/"); cbn [negb]; [exact IH|]. rewrite IH. reflexivity.
  - apply Forall_impl with (2 := Hall).
    intros e (input & t & Hin & _ & ->). cbn [Body Stream_Evt].
    apply filter_In in Hin as [_ Hne]. apply String.eqb_neq.
    destruct (input =? ""); [discriminate|reflexivity].
Qed.

Lemma SimpleStdout_healthy WriteString :
  healthy WriteString ->
  forall Stdout terminal,
    SimpleStdout WriteString Stdout terminal
    = (Drained, terminal ++ concat_all Stdout).
Proof.
  intros Hw. induction Stdout as [|txt rest IH]; intros terminal.
  - cbn. rewrite append_nil_r. reflexivity.
  - cbn [SimpleStdout concat_all fold_right]. rewrite Hw, IH, append_assoc.
    reflexivity.
Qed.

Lemma ReplyToRoom_each_performed Utf8Table (e : hal.Evt Broker Func Payload) cb :
  hal.Broker e = Some cb ->
  forall msgs w Stdout,
  exists w' l,
    ReplyToRoom_each e msgs w = (Ok tt, w')
    /\ trace w' = (trace w ++ l)%list
    /\ perform_all Utf8Table l Stdout = Some (Stdout ++ msgs)%list.
Proof.
  intros Hb. induction msgs as [|msg rest IH]; intros w Stdout.
  - exists w, []. cbn. rewrite !app_nil_r. repeat split.
  - destruct (IH (logged (ticked w) (ASend cb (outgoing e msg w)))
                 (Stdout ++ [msg])%list) as (w' & l & HR & Ht & Hp).
    exists w', (ASend cb (outgoing e msg w) :: l).
    cbn [ReplyToRoom_each]. unfold bind.
    rewrite (ReplyToRoom_attached e msg w cb Hb), HR.
    split; [reflexivity|]. split.
    + rewrite Ht. cbn [trace logged ticked]. rewrite <- app_assoc. reflexivity.
    + cbn [perform_all perform]. unfold Send. cbn [Body outgoing set_Body].
      rewrite Hp, <- app_assoc. reflexivity.
Qed.

(** X19: replies to the room of an envelope of the console broker reach
    a terminal that takes every write exactly as they are: one text on
    [Stdout] for each message, and on the terminal the messages one
    after the other, in order, with nothing added between or after
    them. *)
Theorem console_prints_replies Utf8Table WriteString (e : hal.Evt Broker Func Payload) cb msgs w terminal :
  healthy WriteString ->
  hal.Broker e = Some cb ->
  run (ReplyToRoom_each e msgs) w = Ok tt
  /\ perform_all Utf8Table (acts (ReplyToRoom_each e msgs) w) [] = Some msgs
  /\ SimpleStdout WriteString msgs terminal
     = (Drained, terminal ++ concat_all msgs).
Proof.
  intros Hw Hb.
  destruct (ReplyToRoom_each_performed Utf8Table e cb Hb msgs w [])
    as (w' & l & HR & Ht & Hp).
  split; [exact (run_of _ _ _ _ _ HR)|]. split.
  - assert (acts (ReplyToRoom_each e msgs) w = l) as ->; [|exact Hp].
    apply acts_of_trace. rewrite HR. exact Ht.
  - apply SimpleStdout_healthy. exact Hw.
Qed.

(** X20: [SimpleStdout] stops at the first write that fails: it ends
    the process with the error in its message, and the texts that wait
    behind the failing one are not written. *)
Theorem SimpleStdout_stops WriteString done txt rest terminal shown err :
  (forall t s, In s done -> WriteString t s = (t ++ s, None)) ->
  WriteString (terminal ++ concat_all done) txt = (shown, Some err) ->
  SimpleStdout WriteString (done ++ txt :: rest) terminal
  = (Fatal ("Could not write to stdout: " ++ err ++ newline), shown).
Proof.
  revert terminal. induction done as [|d done IH]; intros terminal Hdone Hfail.
  - cbn [app SimpleStdout]. cbn [concat_all fold_right] in Hfail.
    rewrite append_nil_r in Hfail. rewrite Hfail. reflexivity.
  - cbn [app SimpleStdout]. rewrite (Hdone terminal d (or_introl eq_refl)).
    apply IH.
    + intros t s Hin. apply Hdone. right. exact Hin.
    + cbn [concat_all fold_right] in Hfail. rewrite <- append_assoc in Hfail.
      exact Hfail.
Qed.

(** X21: the usage error reaches the terminal as it is: on a reaction
    command with a wrong number of arguments, under a store in which no
    lookup succeeds and with a terminal that takes every write, the one
    text put on [Stdout] is the usage error and the terminal shows it
    with nothing added. *)
Theorem usage_error_printed Utf8Table WriteString cb input w terminal rest :
  HasPrefix input "/" = true ->
  BodyAsArgv (Stream_Evt (Func := Func) cb input (clock w (tick w)))
  = "/reaction" :: rest ->
  List.length rest <> 1 ->
  (forall p key, Pref.Success (One (FindKey p key)) = false) ->
  healthy WriteString ->
  perform_all Utf8Table (acts (Stream_body cb input) w) [] = Some [usage]
  /\ SimpleStdout WriteString [usage] terminal = (Drained, terminal ++ usage).
Proof.
  intros H Hargs Hlen Hmiss Hw.
  pose proof (Stream_body_slash cb input w "/reaction" rest H Hargs) as HS.
  cbv zeta in HS. rewrite String.eqb_refl in HS.
  set (e := Stream_Evt cb input (clock w (tick w))) in *.
  destruct (Reply_unforced e usage (ticked w) cb eq_refl eq_refl eq_refl eq_refl)
    as (p & _ & HR).
  rewrite Hmiss in HR. cbn [andb] in HR.
  assert (Stream_body cb input w
          = (Ok (mkTurn e None),
             logged (ticked (logged (ticked w) (AFindKey p "reply-via-dm")))
                    (ASend cb (outgoing e usage (ticked w))))) as HB.
  { rewrite HS. destruct rest as [|a1 [|a2 rest]];
      [|exfalso; apply Hlen; reflexivity|];
      unfold bind; rewrite HR; reflexivity. }
  split.
  - assert (acts (Stream_body cb input) w
            = [AFindKey p "reply-via-dm"; ASend cb (outgoing e usage (ticked w))])
      as ->; [|reflexivity].
    apply acts_of_trace. rewrite HB. cbn. rewrite <- app_assoc. reflexivity.
  - rewrite (SimpleStdout_healthy WriteString Hw). cbn [concat_all fold_right].
    rewrite append_nil_r. reflexivity.
Qed.

End ConsoleFacts.

(** ** The claims at concrete inputs *)

Section Evaluations.
Import GoStrings Regexp hal console Samples.

(** C1: the line [/reaction :thumbsup:] has the two tokens of a reaction
    with one argument; the turn of [Stream] rewrites its local event (the
    body becomes the argument, the payload a [SlashReaction]) and then
    sends nothing on [out]: no event is forwarded. *)
Theorem reaction_line_not_forwarded :
  BodyAsArgv (Stream_Evt (Func := nat) lobby "/reaction :thumbsup:" 1000)
  = ["/reaction"; ":thumbsup:"]
  /\ (exists e',
         run (Stream_body (store := empty_store) lobby "/reaction :thumbsup:") world0
         = Ok (mkTurn e' None)
         /\ Body e' = ":thumbsup:"
         /\ Original e' = Some (PtrSlashReaction ":thumbsup:")
         /\ is_reaction (Original e') = true)
  /\ run (Stream (store := empty_store) lobby ["/reaction :thumbsup:"]) world0 = Ok []
  /\ acts (Stream (store := empty_store) lobby ["/reaction :thumbsup:"]) world0 = [].
Proof.
  split; [reflexivity|].
  split; [eexists; repeat split|].
  split; reflexivity.
Qed.

(** C2: the clone of an envelope whose [Original] holds the line read
    still holds it: [Clone] copies [Original], it does not purge it
    (body, command and subject are purged). *)
Theorem Clone_keeps_Original :
  exists c,
    run (Clone hello) world0 = Ok c
    /\ Original hello = Some (PtrString "hello")
    /\ Original c = Some (PtrString "hello")
    /\ Body c = "" /\ Command c = "" /\ Subject c = "".
Proof.
  eexists. repeat split.
Qed.

(** C7: the body [a ' b] holds a quote character between two blanks;
    the expression matches it as a run of one non-space byte, and the
    loop that removes the outer quotes turns that token into the empty
    string. *)
Theorem lone_quote_becomes_empty :
  FindAllString (TrimSpace "a ' b") = ["a"; "'"; "b"]
  /\ BodyAsArgv (set_Body hello "a ' b") = ["a"; ""; "b"].
Proof.
  split; reflexivity.
Qed.

(** C10, the claim as stated fails: alice's envelope has a broker and
    instance metadata attached, yet the calls [InstanceSettings] makes
    into the store carry the empty user, not the user of the envelope. *)
Lemma InstanceSettings_not_user_scoped :
  hal.User hello = "alice"
  /\ acts (InstanceSettings (store := empty_store) hello) world0
     = [AGetPref "" "lobby" "lobby" "uptime" "interval" "60";
        AGetPref "" "lobby" "lobby" "uptime" "format" "short"]
  /\ ~ user_scoped hello lobby (Instance.mk uptime)
       (acts (InstanceSettings (store := empty_store) hello) world0).
Proof.
  split; [reflexivity|]. split; [reflexivity|].
  intros H. inversion H as [|a l Ha Hl]. discriminate Ha.
Qed.

(** The three examples of the tokenizer: quoted tokens lose their
    quotes, the empty body has no token, and an unterminated quote stays
    in its token. *)
Theorem BodyAsArgv_examples :
  BodyAsArgv (set_Body hello " a 'b c' d") = ["a"; "b c"; "d"]
  /\ BodyAsArgv (set_Body hello "") = []
  /\ BodyAsArgv (set_Body hello "a 'b") = ["a"; "'b"].
Proof.
  repeat split.
Qed.

End Evaluations.

(** ** The theorems that carry hypotheses, applied *)

Section Witnesses.
Import GoStrings Regexp hal console Samples.

(** [Reply_forced] on alice's envelope: with a stored function (number
    7) and force-to-function; with force-to-room alone; with
    force-to-room and force-to-user; with all three. *)
Lemma Reply_forced_witness :
  (exists rest,
      acts (Reply (store := dm_store) (with_flags hello true false true (Some 7)) "pong")
           world0
      = AReplyFunc 7 "pong" :: rest)
  /\ acts (Reply (store := dm_store) (with_flags hello false true false None) "pong")
          world0
     = [ASend lobby (outgoing (with_flags hello false true false None) "pong" world0)]
  /\ acts (Reply (store := dm_store) (with_flags hello false true true None) "pong")
          world0
     = [ASend lobby (outgoing (with_flags hello false true true None) "pong" world0);
        ASendDM lobby (outgoing (with_flags hello false true true None) "pong"
                                (ticked world0))]
  /\ run (Reply (store := dm_store) (with_flags hello true true true (Some 7)) "pong")
         world0 = Ok tt
  /\ existsb consults_store
             (acts (Reply (store := dm_store) (with_flags hello false false true None) "pong")
                   world0) = false.
Proof.
  split.
  { exact (proj1 (Reply_forced (store := dm_store)
                               (with_flags hello true false true (Some 7)) "pong" world0)
                 7 eq_refl eq_refl). }
  split.
  { exact (proj2 (proj2 (proj1 (proj2 (Reply_forced
                                         (store := dm_store)
                                         (with_flags hello false true false None)
                                         "pong" world0))
                               eq_refl eq_refl eq_refl)
                        lobby eq_refl)). }
  split.
  { exact (proj2 (proj2 (proj1 (proj2 (proj2 (Reply_forced
                                                (store := dm_store)
                                                (with_flags hello false true true None)
                                                "pong" world0)))
                               eq_refl eq_refl eq_refl)
                        lobby eq_refl)). }
  split.
  { exact (proj1 (proj1 (proj2 (proj2 (proj2 (Reply_forced
                                                (store := dm_store)
                                                (with_flags hello true true true (Some 7))
                                                "pong" world0))))
                        lobby 7 eq_refl eq_refl eq_refl eq_refl eq_refl)). }
  exact (proj2 (proj2 (proj2 (proj2 (Reply_forced
                                       (store := dm_store)
                                       (with_flags hello false false true None)
                                       "pong" world0))))
               eq_refl).
Defined.

(** [Reply_by_preference] on alice's envelope, which carries no flag:
    under the store that says reply-via-dm is true the reply goes out
    once, through [SendDM]. *)
Lemma Reply_by_preference_witness :
  acts (Reply (store := dm_store) hello "pong") world0
  = [AFindKey (Pref.mk "u-alice" "lobby" "lobby" "uptime" "" "" false) "reply-via-dm";
     ASendDM lobby (outgoing hello "pong" world0)].
Proof.
  destruct (Reply_by_preference (store := dm_store) hello "pong" world0 lobby
                                eq_refl eq_refl eq_refl eq_refl)
    as (p & c & Hp & _ & _ & _ & _ & Hc & _ & Hacts).
  injection Hp as <-. injection Hc as <-. exact Hacts.
Defined.

(** [AsPref_with_broker] on alice's envelope, and on the same envelope
    without instance metadata. *)
Lemma AsPref_with_broker_witness :
  (exists p,
      run (AsPref hello) world0 = Ok p
      /\ Pref.User p = "u-alice" /\ Pref.Room p = "lobby"
      /\ Pref.Broker p = "lobby" /\ Pref.Plugin p = "uptime")
  /\ (exists p,
         run (AsPref (Clone_at hello 1000)) world0 = Ok p
         /\ Pref.User p = "u-alice" /\ Pref.Plugin p = "").
Proof.
  split.
  - destruct (AsPref_with_broker hello world0 lobby eq_refl)
      as (p & Hp & _ & Hu & Hr & Hb & Hpl).
    exists p. repeat split; assumption.
  - destruct (AsPref_with_broker (Clone_at hello 1000) world0 lobby eq_refl)
      as (p & Hp & _ & Hu & _ & _ & Hpl).
    exists p. repeat split; assumption.
Defined.

(** [Stream_slash_errors] on the reaction command with two arguments and
    on an unknown command. *)
Lemma Stream_slash_errors_witness :
  (run (Stream (store := empty_store) lobby ["/reaction a b"]) world0 = Ok []
   /\ exists p,
       acts (Stream_body (store := empty_store) lobby "/reaction a b") world0
       = [AFindKey p "reply-via-dm";
          ASend lobby (outgoing (Stream_Evt lobby "/reaction a b" 1000) usage
                                (ticked world0))])
  /\ (run (Stream (store := empty_store) lobby ["/deploy now"]) world0 = Ok []
      /\ acts (Stream_body (store := empty_store) lobby "/deploy now") world0 = []).
Proof.
  split.
  - destruct (Stream_slash_errors (store := empty_store) lobby "/reaction a b" world0
                                  eq_refl)
      as (a0 & rest & Hargs & Hbad & _).
    injection Hargs as <- <-.
    destruct (Hbad eq_refl ltac:(discriminate)) as (p & _ & _ & Hrun & Hacts & _).
    split; [exact Hrun|]. exists p. exact Hacts.
  - destruct (Stream_slash_errors (store := empty_store) lobby "/deploy now" world0
                                  eq_refl)
      as (a0 & rest & Hargs & _ & Hother).
    injection Hargs as <- <-.
    destruct (Hother ltac:(discriminate)) as (_ & Hrun & Hacts).
    split; [exact Hrun|exact Hacts].
Defined.

(** [store_accessors] on alice's envelope, and on its clone, which has
    no instance metadata. *)
Lemma store_accessors_witness :
  (run (Evt_FindPrefs (store := empty_store) hello) world0
   = Ok (FindPrefs (PrefStore := empty_store) "alice" "lobby" "lobby" "uptime" "")
   /\ run (InstanceSettings (store := empty_store) hello) world0
      = Ok [Pref.mk "" "lobby" "lobby" "uptime" "interval" "60" false;
            Pref.mk "" "lobby" "lobby" "uptime" "format" "short" false])
  /\ (exists m, run (InstanceSettings (store := empty_store) (Clone_at hello 1000))
                    world0 = Panic m).
Proof.
  split.
  - destruct (proj2 (store_accessors (store := empty_store) hello world0)
                    lobby (Instance.mk uptime) eq_refl eq_refl)
      as (HF & _ & _ & HS & _).
    split; [exact HF|exact HS].
  - exact (proj1 (proj2 (proj1 (store_accessors (store := empty_store)
                                                (Clone_at hello 1000) world0)
                               (or_intror eq_refl)))).
Defined.

(** [Clone_time] on alice's envelope, stamped 990, cloned at 1000. *)
Lemma Clone_time_witness :
  exists c, run (Clone hello) world0 = Ok c
            /\ Time c = 1000%Z /\ (Time c >= 990)%Z.
Proof.
  exact (Clone_time hello world0 ltac:(cbn; lia)).
Defined.

(** [Stream_slash_never_forwards] on a well-formed reaction. *)
Lemma Stream_slash_never_forwards_witness :
  exists t,
    run (Stream_body (store := empty_store) lobby "/reaction :thumbsup:") world0 = Ok t
    /\ sent t = None
    /\ run (Stream (store := empty_store) lobby ["/reaction :thumbsup:"]) world0 = Ok [].
Proof.
  exact (Stream_slash_never_forwards (store := empty_store) lobby
                                     "/reaction :thumbsup:" world0 eq_refl).
Defined.

(** [Stream_plain_forwards] on a line of chat. *)
Lemma Stream_plain_forwards_witness :
  run (Stream (store := empty_store) lobby ["hello there"]) world0
  = Ok [Stream_Evt lobby "hello there" 1000]
  /\ acts (Stream_body (store := empty_store) lobby "hello there") world0 = [].
Proof.
  destruct (Stream_plain_forwards (store := empty_store) lobby "hello there" world0
                                  eq_refl)
    as (_ & Hrun & Hacts & _).
  split; [exact Hrun|exact Hacts].
Defined.

(** [BodyAsArgv_tokens] on a body with blanks around a word and a quoted
    run: the two matches, the token of each, and the tokens of the code. *)
Lemma BodyAsArgv_tokens_witness :
  Tokens "say 'hi'" ["say"; "'hi'"]
  /\ Forall2 token_of ["say"; "'hi'"] ["say"; "hi"]
  /\ ["say"; "hi"] = BodyAsArgv (set_Body hello "  say 'hi' ").
Proof.
  assert (Tokens "say 'hi'" ["say"; "'hi'"]) as Ht.
  { apply (@Tokens_run "s" "ay" " 'hi'" ["'hi'"]);
      [reflexivity|reflexivity|reflexivity
      |intros [E|E]; discriminate E|].
    apply Tokens_space; [reflexivity|].
    apply (@Tokens_quoted squote "hi" "" []);
      [left; reflexivity|reflexivity|constructor]. }
  assert (Forall2 token_of ["say"; "'hi'"] ["say"; "hi"]) as Hf.
  { constructor; [|constructor; [|constructor]].
    - right; left. exists "s"%char, "ay".
      split; [reflexivity|]. split; [reflexivity|].
      split; [intros [E|E]; discriminate E|].
      split; [intros [[E|E] _]; discriminate E|reflexivity].
    - left. exists squote, "hi".
      split; [left; reflexivity|]. repeat split. }
  split; [exact Ht|]. split; [exact Hf|].
  exact (proj2 (BodyAsArgv_tokens (set_Body hello "  say 'hi' "))
               ["say"; "'hi'"] ["say"; "hi"] Ht Hf).
Defined.

(** [BodyAsArgv_round_trip] on the command line of [deploy_args]. *)
Lemma BodyAsArgv_round_trip_witness :
  BodyAsArgv (set_Body hello (Argv.join deploy_args))
  = ["deploy"; "my app"; "it's"; "--force"].
Proof.
  apply (BodyAsArgv_round_trip hello deploy_args).
  repeat constructor; intros [E|E]; discriminate E.
Defined.

(** [Reply_deliveries] on alice's envelope with the three flags set, and
    with none. *)
Lemma Reply_deliveries_witness :
  deliveries (acts (Reply (store := dm_store)
                          (with_flags hello true true true (Some 7)) "pong") world0)
  = ["pong"; "pong"; "pong"]
  /\ deliveries (acts (Reply (store := dm_store) hello "pong") world0) = ["pong"].
Proof.
  split.
  - exact (Reply_deliveries (store := dm_store)
                            (with_flags hello true true true (Some 7)) "pong" world0
                            eq_refl).
  - exact (Reply_deliveries (store := dm_store) hello "pong" world0 eq_refl).
Defined.

(** [Force_then_Reply] on alice's envelope forced to the function and to
    the user: after [ForceToRoom] the reply goes to the room only. *)
Lemma Force_then_Reply_witness :
  acts (bind (ForceToRoom (with_flags hello true false true (Some 7)))
             (fun c => Reply (store := dm_store) c "pong")) world0
  = [ASend lobby (outgoing hello "pong" (ticked world0))].
Proof.
  exact (proj2 (proj1 (Force_then_Reply (store := dm_store)
                                        (with_flags hello true false true (Some 7))
                                        "pong" world0 lobby eq_refl))).
Defined.

(** [Reply_on_clone] on alice's envelope forced to the room: the reply
    on its clone goes by the preference looked up under no plugin. *)
Lemma Reply_on_clone_witness :
  acts (bind (Clone (with_flags hello false true false None))
             (fun c => Reply (store := dm_store) c "pong")) world0
  = [AFindKey (Pref.mk "u-alice" "lobby" "lobby" "" "" "" false) "reply-via-dm";
     ASendDM lobby (outgoing hello "pong" (ticked world0))].
Proof.
  exact (proj2 (Reply_on_clone (store := dm_store)
                               (with_flags hello false true false None)
                               "pong" world0 lobby eq_refl)).
Defined.

(** [SimpleStdin_pushes] on the scans of [typed], alone and followed by
    a scan that fails. *)
Lemma SimpleStdin_pushes_witness :
  SimpleStdin typed [] = (Drained, ["hi"; "/help"; "bye"])
  /\ SimpleStdin (typed ++ [mkScanned "x" (Some "EOF"); mkScanned "y" None]) []
     = (Fatal ("Failed while reading from stdin: EOF" ++ newline),
        ["hi"; "/help"; "bye"]).
Proof.
  destruct (SimpleStdin_pushes typed ltac:(repeat constructor) [])
    as (H1 & _ & H2).
  split; [exact H1|exact (H2 "x" "EOF" [mkScanned "y" None])].
Defined.

(** [SimpleStdin_then_Stream] on the scans of [typed]. *)
Lemma SimpleStdin_then_Stream_witness :
  exists lines evts,
    SimpleStdin typed [] = (Drained, lines)
    /\ run (Stream (Func := nat) (store := empty_store) lobby lines) world0 = Ok evts
    /\ map (@Body Broker nat Payload) evts = ["hi"; "bye"].
Proof.
  destruct (SimpleStdin_then_Stream (Func := nat) (store := empty_store)
                                    lobby typed world0 ltac:(repeat constructor))
    as (lines & evts & H1 & H2 & H3 & _).
  exists lines, evts. split; [exact H1|]. split; [exact H2|exact H3].
Defined.

(** [console_prints_replies] on two replies to alice's envelope. *)
Lemma console_prints_replies_witness :
  perform_all bare_table (acts (ReplyToRoom_each hello ["one"; "two"]) world0) []
  = Some ["one"; "two"]
  /\ SimpleStdout tty ["one"; "two"] "> " = (Drained, "> onetwo").
Proof.
  destruct (console_prints_replies bare_table tty hello lobby ["one"; "two"]
                                   world0 "> "
                                   ltac:(intros t s; reflexivity) eq_refl)
    as (_ & H1 & H2).
  split; [exact H1|exact H2].
Defined.

(** [SimpleStdout_stops] on a terminal that breaks at the second text. *)
Lemma SimpleStdout_stops_witness :
  SimpleStdout tty_breaks ["one"; "boom"; "two"] "> "
  = (Fatal ("Could not write to stdout: broken pipe" ++ newline), "> one").
Proof.
  apply (SimpleStdout_stops tty_breaks ["one"] "boom" ["two"] "> " "> one"
                            "broken pipe").
  - intros t s [<-|[]]. reflexivity.
  - reflexivity.
Defined.

(** [usage_error_printed] on the reaction command with two arguments. *)
Lemma usage_error_printed_witness :
  perform_all bare_table
              (acts (Stream_body (Func := nat) (store := empty_store)
                                 lobby "/reaction a b") world0) []
  = Some [usage]
  /\ SimpleStdout tty [usage] "" = (Drained, usage).
Proof.
  exact (usage_error_printed (Func := nat) (store := empty_store)
                             bare_table tty lobby "/reaction a b" world0 ""
                             ["a"; "b"] eq_refl eq_refl ltac:(discriminate)
                             ltac:(intros p key; reflexivity)
                             ltac:(intros t s; reflexivity)).
Defined.

End Witnesses.
